(** * canvas_full_sync.py: the date-inference engine

    A shallow embedding of [load_schedule], [get_next_class_date],
    [find_date_in_text] and the announcement loop of [main] of
    [canvas_full_sync.py], with the parts of the Python runtime they
    call ([re.search], [datetime.strptime], [datetime] arithmetic,
    [int], [str.lower], [sorted], [in]).

    Conventions.
    - A Python [str] is a list of characters; a character is one of the
      256 code points below U+0100 (type [ascii], read as Latin-1).
      Character classes ([\d], [\s], [\w], case folding) are the
      Unicode ones restricted to that range.
    - A call that may raise returns a [result]: [Ok v] or [Raise e].
    - What a library outside the program does ([json.loads], the Canvas
      client, the calendar library) is an input, with every outcome the
      call can have: a value or an exception.
    - [print] is modelled by the list of events it emits.
    - The wall clock ([datetime.now()]) is an argument. *)

From Stdlib Require Import ZArith List Bool Ascii String Lia.
From Stdlib Require Import Permutation Sorted.
From Stdlib Require SpecFloat.
Import ListNotations.

Local Open Scope Z_scope.

(* ================================================================= *)
(** ** Exceptions and results *)

(** The exception classes the program meets; [Other] is any further
    subclass of [Exception], by name, as the libraries raise them. *)
Inductive exn : Type :=
| ValueError
| KeyError
| IndexError
| OverflowError
| TypeError
| AttributeError
| RecursionError
| Other (class_name : string).

Inductive result (A : Type) : Type :=
| Ok (a : A)
| Raise (e : exn).

Arguments Ok {A} a.
Arguments Raise {A} e.

Definition bind {A B : Type} (m : result A) (f : A -> result B) : result B :=
  match m with
  | Ok a => f a
  | Raise e => Raise e
  end.

Notation "'let*' x ':=' m 'in' f" := (bind m (fun x => f))
  (at level 10, x pattern, m at level 100, f at level 200).

(** [try: m except Exception: h] *)
Definition try_except {A : Type} (m : result A) (h : A) : result A :=
  match m with
  | Ok a => Ok a
  | Raise _ => Ok h
  end.

(* ================================================================= *)
(** ** Strings *)

Definition text : Type := list ascii.

Definition str (s : string) : text := list_ascii_of_string s.

Definition code (c : ascii) : Z := Z.of_N (N_of_ascii c).

Definition between (lo hi : Z) (c : ascii) : bool :=
  (lo <=? code c) && (code c <=? hi).

(** [\d] *)
Definition is_digit (c : ascii) : bool := between 48 57 c.

(** [\s]: TAB LF VT FF CR, FS GS RS US, SPACE, NEL, NBSP *)
Definition is_space (c : ascii) : bool :=
  between 9 13 c || between 28 32 c
  || (code c =? 133) || (code c =? 160).

(** [[a-z]] under [re.IGNORECASE] *)
Definition is_letter (c : ascii) : bool :=
  between 65 90 c || between 97 122 c.

(** [\w]: alphanumeric or underscore *)
Definition is_word (c : ascii) : bool :=
  is_digit c || is_letter c || (code c =? 95)
  || (code c =? 170) || between 178 179 c || (code c =? 181)
  || between 185 186 c || between 188 190 c
  || between 192 214 c || between 216 246 c || between 248 255 c.

(** [str.lower] on one character *)
Definition lower (c : ascii) : ascii :=
  if between 65 90 c || between 192 214 c || between 216 222 c
  then ascii_of_N (N_of_ascii c + 32)
  else c.

(** [str.lower] on a text of code points below U+0100: there it works
    character by character.  (Beyond that range it does not: U+0130
    lowers to two code points.) *)
Definition text_lower (s : text) : text := map lower s.

Fixpoint text_eqb (a b : text) : bool :=
  match a, b with
  | [], [] => true
  | x :: a', y :: b' => Ascii.eqb x y && text_eqb a' b'
  | _, _ => false
  end.

Fixpoint starts_with (k s : text) : bool :=
  match k, s with
  | [], _ => true
  | x :: k', y :: s' => Ascii.eqb x y && starts_with k' s'
  | _ :: _, [] => false
  end.

(** [k in s] for two strings *)
Fixpoint contains (k s : text) : bool :=
  starts_with k s ||
  match s with
  | [] => false
  | _ :: s' => contains k s'
  end.

Definition digit_value (c : ascii) : Z := code c - 48.

(** [int(s)] for [s] a run of decimal digits; anything else is a
    [ValueError]. *)
Definition int_of_digits (s : text) : result Z :=
  match s with
  | [] => Raise ValueError
  | _ =>
      if forallb is_digit s
      then Ok (fold_left (fun acc c => 10 * acc + digit_value c) s 0)
      else Raise ValueError
  end.

(** [str.strip] of leading blanks, as [int] does before converting *)
Fixpoint lstrip (s : text) : text :=
  match s with
  | c :: s' => if is_space c then lstrip s' else s
  | [] => []
  end.

(* ================================================================= *)
(** ** Regular expressions: the fragment of [re] the program uses

    Matching is Python's: leftmost, alternatives in order, greedy
    repetition with backtracking.  Every pattern of the program is
    compiled with [re.IGNORECASE], so a literal compares modulo case. *)

Inductive regex : Type :=
| Eps
| Chr (c : ascii)                  (* a literal character *)
| Cls (p : ascii -> bool)          (* a character class *)
| Cat (r1 r2 : regex)              (* r1 r2 *)
| Alt (r1 r2 : regex)              (* r1|r2 *)
| Opt (r : regex)                  (* r? *)
| Star (p : ascii -> bool)         (* [class]* *)
| Grp (i : nat) (r : regex)        (* capturing group number i *)
| Bnd.                             (* \b *)

(** A literal word *)
Fixpoint Lit (s : text) : regex :=
  match s with
  | [] => Eps
  | [c] => Chr c
  | c :: s' => Cat (Chr c) (Lit s')
  end.

Definition Word (s : string) : regex := Lit (str s).

(** [class+] *)
Definition Plus (p : ascii -> bool) : regex := Cat (Cls p) (Star p).

(** r1 r2 ... rn *)
Fixpoint Cats (rs : list regex) : regex :=
  match rs with
  | [] => Eps
  | [r] => r
  | r :: rs' => Cat r (Cats rs')
  end.

(** r1|r2|...|rn *)
Fixpoint Alts (rs : list regex) : regex :=
  match rs with
  | [] => Eps
  | [r] => r
  | r :: rs' => Alt r (Alts rs')
  end.

(** A position in the subject: its index, the character before it, if
    any, and the text from it on. *)
Record pos : Type :=
  mkpos { index : nat; before : option ascii; rest : text }.

(** The groups that took part in the match, latest first. *)
Definition captures : Type := list (nat * text).

Fixpoint group (i : nat) (caps : captures) : option text :=
  match caps with
  | [] => None
  | (j, s) :: caps' => if Nat.eqb i j then Some s else group i caps'
  end.

(** A match: the groups, and the text left after the match. *)
Definition rmatch : Type := (captures * text)%type.

Definition is_word_at (c : option ascii) : bool :=
  match c with
  | Some x => is_word x
  | None => false
  end.

(** [\b]: exactly one of the characters around the position is a word
    character. *)
Definition at_boundary (p : pos) : bool :=
  xorb (is_word_at (before p)) (is_word_at (hd_error (rest p))).

Definition orelse {A : Type} (a : option A) (b : option A) : option A :=
  match a with
  | Some x => Some x
  | None => b
  end.

(** Greedy [class*]: take one more character if it is in the class and
    the rest of the pattern then matches; otherwise stop here. *)
Fixpoint star (f : ascii -> bool) (i : nat) (prev : option ascii) (s : text)
  (caps : captures) (k : pos -> captures -> option rmatch)
  : option rmatch :=
  match s with
  | c :: s' =>
      if f c
      then orelse (star f (S i) (Some c) s' caps k) (k (mkpos i prev s) caps)
      else k (mkpos i prev s) caps
  | [] => k (mkpos i prev s) caps
  end.

(** What a group matched: the text between two positions. *)
Definition consumed (from to : pos) : text :=
  firstn (index to - index from) (rest from).

(** The backtracking matcher, with the rest of the pattern as a
    continuation. *)
Fixpoint exec (r : regex) (p : pos) (caps : captures)
  (k : pos -> captures -> option rmatch) : option rmatch :=
  match r with
  | Eps => k p caps
  | Chr c =>
      match rest p with
      | x :: s' =>
          if Ascii.eqb (lower x) (lower c)
          then k (mkpos (S (index p)) (Some x) s') caps
          else None
      | [] => None
      end
  | Cls f =>
      match rest p with
      | x :: s' =>
          if f x then k (mkpos (S (index p)) (Some x) s') caps else None
      | [] => None
      end
  | Cat r1 r2 => exec r1 p caps (fun p' caps' => exec r2 p' caps' k)
  | Alt r1 r2 => orelse (exec r1 p caps k) (exec r2 p caps k)
  | Opt r1 => orelse (exec r1 p caps k) (k p caps)
  | Star f => star f (index p) (before p) (rest p) caps k
  | Grp i r1 =>
      exec r1 p caps (fun p' caps' => k p' ((i, consumed p p') :: caps'))
  | Bnd => if at_boundary p then k p caps else None
  end.

Definition accept : pos -> captures -> option rmatch :=
  fun p caps => Some (caps, rest p).

(** [re.match]: a match that starts at the given position. *)
Definition match_at (r : regex) (p : pos) : option rmatch :=
  exec r p [] accept.

(** The start of the subject. *)
Definition start (s : text) : pos := mkpos 0 None s.

(** [re.search] from a position on: the first start that matches. *)
Fixpoint search_from (r : regex) (i : nat) (prev : option ascii) (s : text)
  : option rmatch :=
  match match_at r (mkpos i prev s) with
  | Some m => Some m
  | None =>
      match s with
      | [] => None
      | c :: s' => search_from r (S i) (Some c) s'
      end
  end.

(** [re.search(r, s, re.IGNORECASE)] *)
Definition re_search (r : regex) (s : text) : option captures :=
  option_map fst (search_from r 0 None s).

(* ================================================================= *)
(** ** [datetime]: the proleptic Gregorian calendar

    Every [datetime] the program builds is at midnight
    ([strptime] with ["%Y-%m-%d"], [datetime(y, m, d)], a whole number
    of days added), so a [datetime] is its calendar date. *)

Record datetime : Type := mkdate { year : Z; month : Z; day : Z }.

Definition MINYEAR : Z := 1.
Definition MAXYEAR : Z := 9999.

Definition is_leap (y : Z) : bool :=
  (y mod 4 =? 0) && (negb (y mod 100 =? 0) || (y mod 400 =? 0)).

Definition DAYS_IN_MONTH (m : Z) : Z :=
  match m with
  | 1 => 31 | 2 => 28 | 3 => 31 | 4 => 30 | 5 => 31 | 6 => 30
  | 7 => 31 | 8 => 31 | 9 => 30 | 10 => 31 | 11 => 30 | 12 => 31
  | _ => -1
  end.

Definition DAYS_BEFORE_MONTH (m : Z) : Z :=
  match m with
  | 1 => 0 | 2 => 31 | 3 => 59 | 4 => 90 | 5 => 120 | 6 => 151
  | 7 => 181 | 8 => 212 | 9 => 243 | 10 => 273 | 11 => 304 | 12 => 334
  | _ => -1
  end.

Definition days_in_month (y m : Z) : Z :=
  if (m =? 2) && is_leap y then 29 else DAYS_IN_MONTH m.

Definition days_before_year (y : Z) : Z :=
  let y' := y - 1 in y' * 365 + y' / 4 - y' / 100 + y' / 400.

Definition days_before_month (y m : Z) : Z :=
  DAYS_BEFORE_MONTH m + (if (2 <? m) && is_leap y then 1 else 0).

(** The check the [datetime] constructor makes on its fields. *)
Definition valid_ymd (y m d : Z) : bool :=
  (MINYEAR <=? y) && (y <=? MAXYEAR) &&
  (1 <=? m) && (m <=? 12) &&
  (1 <=? d) && (d <=? days_in_month y m).

Definition valid_date (dt : datetime) : bool :=
  valid_ymd (year dt) (month dt) (day dt).

(** [datetime(y, m, d)] *)
Definition new_datetime (y m d : Z) : result datetime :=
  if valid_ymd y m d then Ok (mkdate y m d) else Raise ValueError.

(** [toordinal]: 0001-01-01 is day 1. *)
Definition ymd2ord (y m d : Z) : Z :=
  days_before_year y + days_before_month y m + d.

Definition toordinal (dt : datetime) : Z :=
  ymd2ord (year dt) (month dt) (day dt).

Definition MAXORDINAL : Z := 3652059.

Definition DI400Y : Z := 146097.
Definition DI100Y : Z := 36524.
Definition DI4Y : Z := 1461.

(** Month and day of the day numbered [n] (from 0) of a year: the
    month is estimated as [(n + 50) >> 5], which is exact or one too
    large. *)
Definition month_day (leapyear : bool) (n : Z) : Z * Z :=
  let m := Z.shiftr (n + 50) 5 in
  let preceding :=
    DAYS_BEFORE_MONTH m + (if (2 <? m) && leapyear then 1 else 0) in
  if n <? preceding
  then
    let m' := m - 1 in
    let preceding' :=
      preceding
      - (DAYS_IN_MONTH m' + (if (m' =? 2) && leapyear then 1 else 0)) in
    (m', n - preceding' + 1)
  else (m, n - preceding + 1).

(** [fromordinal], by the library's algorithm: 400-, 100-, 4- and
    1-year cycles, then the month and the day. *)
Definition ord2ymd (n : Z) : datetime :=
  let n := n - 1 in
  let n400 := n / DI400Y in
  let n := n mod DI400Y in
  let n100 := n / DI100Y in
  let n := n mod DI100Y in
  let n4 := n / DI4Y in
  let n := n mod DI4Y in
  let n1 := n / 365 in
  let n := n mod 365 in
  let y := n400 * 400 + 1 + n100 * 100 + n4 * 4 + n1 in
  if (n1 =? 4) || (n100 =? 4) then mkdate (y - 1) 12 31
  else
    let leapyear := (n1 =? 3) && (negb (n4 =? 24) || (n100 =? 3)) in
    let (m, d) := month_day leapyear n in
    mkdate y m d.

(** [weekday]: Monday is 0, Sunday is 6. *)
Definition weekday (dt : datetime) : Z := (toordinal dt + 6) mod 7.

(** [dt + timedelta(days=n)].  Both [timedelta(days=n)] beyond
    999999999 days and a sum outside 0001-01-01 .. 9999-12-31 raise
    [OverflowError]; the first implies the second. *)
Definition plus_days (dt : datetime) (n : Z) : result datetime :=
  let o := toordinal dt + n in
  if (1 <=? o) && (o <=? MAXORDINAL) then Ok (ord2ymd o)
  else Raise OverflowError.

(** [\d{4}] *)
Definition four_digits : regex :=
  Cats [Cls is_digit; Cls is_digit; Cls is_digit; Cls is_digit].

(** [(?P<m>1[0-2]|0[1-9]|[1-9])] *)
Definition month_field : regex :=
  Grp 2 (Alts [ Cat (Chr "1") (Cls (between 48 50));
                Cat (Chr "0") (Cls (between 49 57));
                Cls (between 49 57) ]).

(** [(?P<d>3[0-1]|[1-2]\d|0[1-9]|[1-9]| [1-9])] *)
Definition day_field : regex :=
  Grp 3 (Alts [ Cat (Chr "3") (Cls (between 48 49));
                Cat (Cls (between 49 50)) (Cls is_digit);
                Cat (Chr "0") (Cls (between 49 57));
                Cls (between 49 57);
                Cat (Chr " ") (Cls (between 49 57)) ]).

(** ["-%m-%d"] *)
Definition month_and_day_regex : regex :=
  Cats [Chr "-"; month_field; Chr "-"; day_field].

(** The pattern [strptime] compiles ["%Y-%m-%d"] to:
    [(?P<Y>\d\d\d\d)-(?P<m>1[0-2]|0[1-9]|[1-9])-(?P<d>3[0-1]|[1-2]\d|0[1-9]|[1-9]| [1-9])] *)
Definition strptime_regex : regex :=
  Cat (Grp 1 four_digits) month_and_day_regex.

Definition group_int (i : nat) (caps : captures) : result Z :=
  match group i caps with
  | Some s => int_of_digits (lstrip s)
  | None => Raise ValueError
  end.

(** [datetime.strptime(s, "%Y-%m-%d")]: the pattern must match at the
    start ("does not match format"), nothing may be left over
    ("unconverted data remains"), and the fields must form a date. *)
Definition strptime (s : text) : result datetime :=
  match match_at strptime_regex (start s) with
  | None => Raise ValueError
  | Some (caps, rest) =>
      match rest with
      | _ :: _ => Raise ValueError
      | [] =>
          let* y := group_int 1 caps in
          let* m := group_int 2 caps in
          let* d := group_int 3 caps in
          new_datetime y m d
      end
  end.

(** [date.isoformat]: ["%04d-%02d-%02d"] *)
Definition digit_char (n : Z) : ascii := ascii_of_N (Z.to_N (48 + n mod 10)).

Definition isoformat (dt : datetime) : text :=
  [ digit_char (year dt / 1000); digit_char (year dt / 100);
    digit_char (year dt / 10); digit_char (year dt);
    "-"%char;
    digit_char (month dt / 10); digit_char (month dt);
    "-"%char;
    digit_char (day dt / 10); digit_char (day dt) ].

(* ================================================================= *)
(** ** [load_schedule]

    [json.loads] belongs to the [json] library; its outcome on the
    text of [MY_TIMETABLE] (["{}"] when the variable is unset, which
    decodes to the empty object) is the input here. *)

(** A decoded value: [None], a [bool], an [int], a [float] (a number
    written with a fraction or an exponent, or [NaN], [Infinity]), a
    [str], a [list] or a [dict] in the order of its keys. *)
#[warnings="-register-all"]
Inductive json : Type :=
| JNull
| JBool (b : bool)
| JInt (n : Z)
| JFloat (x : SpecFloat.spec_float)
| JString (s : text)
| JArray (l : list json)
| JObject (m : list (text * json)).

(** What [json.loads(timetable_str)] does: it returns a value; it
    raises [json.JSONDecodeError] on a text that is not valid JSON; or
    it raises an exception of another class, as it does on some valid
    JSON texts ([RecursionError] when the nesting is too deep,
    [ValueError] when an integer has more digits than [int] converts).
    [JSONDecodeError] is a subclass of [ValueError], so the [except] of
    line 17 does not catch a plain [ValueError]. *)
Inductive json_loads_outcome : Type :=
| Decoded (v : json)
| JSONDecodeError
| Raises (e : exn).

(** What the program prints. *)
Inductive event : Type :=
| Warning_could_not_parse
| Found_next_class (course_code : text) (moved_to : datetime).

(** Lines 15-19: only [json.JSONDecodeError] is caught; any other
    exception leaves [load_schedule], and with it the module. *)
Definition load_schedule (decoded : json_loads_outcome)
  : list event * result json :=
  match decoded with
  | Decoded v => ([], Ok v)
  | JSONDecodeError => ([Warning_could_not_parse], Ok (JObject []))
  | Raises e => ([], Raise e)
  end.

(** The format the docstring of [load_schedule] expects:
    [{"CS 363": [1, 3], "MATH 205": [0, 2, 4]}], keys in the order of
    the dictionary.  The weekday values are integers: a decoded value
    of another shape, or with other values in the lists, is not a
    [schedule] ([as_schedule] below). *)
Definition schedule : Type := list (text * list Z).

Definition as_int (v : json) : option Z :=
  match v with
  | JInt n => Some n
  | _ => None
  end.

Fixpoint as_ints (l : list json) : option (list Z) :=
  match l with
  | [] => Some []
  | v :: l' =>
      match as_int v, as_ints l' with
      | Some n, Some ns => Some (n :: ns)
      | _, _ => None
      end
  end.

Definition as_weekdays (v : json) : option (list Z) :=
  match v with
  | JArray l => as_ints l
  | _ => None
  end.

Fixpoint as_entries (m : list (text * json)) : option schedule :=
  match m with
  | [] => Some []
  | (k, v) :: m' =>
      match as_weekdays v, as_entries m' with
      | Some days, Some rest => Some ((k, days) :: rest)
      | _, _ => None
      end
  end.

(** A decoded value that is a mapping from course keys to lists of
    integers. *)
Definition as_schedule (v : json) : option schedule :=
  match v with
  | JObject m => as_entries m
  | _ => None
  end.

(* ================================================================= *)
(** ** [get_next_class_date] *)

(** [sorted] on a list of integers *)
Fixpoint insert (x : Z) (l : list Z) : list Z :=
  match l with
  | [] => [x]
  | y :: l' => if x <=? y then x :: l else y :: insert x l'
  end.

Fixpoint sorted (l : list Z) : list Z :=
  match l with
  | [] => []
  | x :: l' => insert x (sorted l')
  end.

(** [MY_SCHEDULE[key]] *)
Fixpoint lookup (key : text) (m : schedule) : result (list Z) :=
  match m with
  | [] => Raise KeyError
  | (k, v) :: m' => if text_eqb key k then Ok v else lookup key m'
  end.

(** The loop over the keys: the first [key] with [key in course_code]. *)
Definition find_base_code (MY_SCHEDULE : schedule) (course_code : text)
  : option text :=
  find (fun key => contains key course_code) (map fst MY_SCHEDULE).

(** The loop over [class_days], from [days_ahead = 0]. *)
Definition scan_days_ahead (class_days : list Z) (posted_day_idx : Z) : Z :=
  match find (fun day => day >? posted_day_idx) class_days with
  | Some day => day - posted_day_idx
  | None => 0
  end.

(** Line 50: when the loop left [days_ahead] at 0, wrap to the first
    class day of the following week. *)
Definition wrap_days_ahead (class_days : list Z) (posted_day_idx : Z)
  (days_ahead : Z) : result Z :=
  if days_ahead =? 0
  then
    match class_days with
    | first :: _ => Ok ((7 - posted_day_idx) + first)
    | [] => Raise IndexError
    end
  else Ok days_ahead.

(** Lines 40-53, for the weekday list of the matched course. *)
Definition next_class_from (days : list Z) (posted_date_obj : datetime)
  : result (option datetime) :=
  let class_days := sorted days in
  let posted_day_idx := weekday posted_date_obj in
  let days_ahead := scan_days_ahead class_days posted_day_idx in
  let* days_ahead := wrap_days_ahead class_days posted_day_idx days_ahead in
  let* next := plus_days posted_date_obj days_ahead in
  Ok (Some next).

Definition get_next_class_date (MY_SCHEDULE : schedule)
  (course_code : text) (posted_date_obj : datetime)
  : result (option datetime) :=
  match MY_SCHEDULE with
  | [] => Ok None
  | _ =>
      match find_base_code MY_SCHEDULE course_code with
      | None => Ok None
      | Some [] => Ok None
      | Some base_code =>
          let* days := lookup base_code MY_SCHEDULE in
          next_class_from days posted_date_obj
      end
  end.

(* ================================================================= *)
(** ** [find_date_in_text] *)

(** [datetime.now()], read once per call. *)
Record clock : Type := mkclock { now_year : Z; now_month : Z }.

(** [\b(next\s+class|next\s+lecture|next\s+session)\b] *)
Definition next_class_regex : regex :=
  Cats
    [ Bnd;
      Grp 1 (Alts [ Cats [Word "next"; Plus is_space; Word "class"];
                    Cats [Word "next"; Plus is_space; Word "lecture"];
                    Cats [Word "next"; Plus is_space; Word "session"] ]);
      Bnd ].

(** [Jan|Feb|Mar|Apr|May|Jun|Jul|Aug|Sep|Oct|Nov|Dec] *)
Definition month_names : regex :=
  Alts [ Word "Jan"; Word "Feb"; Word "Mar"; Word "Apr"; Word "May";
         Word "Jun"; Word "Jul"; Word "Aug"; Word "Sep"; Word "Oct";
         Word "Nov"; Word "Dec" ].

(** [(?:st|nd|rd|th)?] *)
Definition ordinal_suffix : regex :=
  Opt (Alts [Word "st"; Word "nd"; Word "rd"; Word "th"]).

(** [\d{1,2}] *)
Definition one_or_two_digits : regex :=
  Cat (Cls is_digit) (Opt (Cls is_digit)).

(** [(\d{1,2})(?:st|nd|rd|th)?\s+(Jan|...|Dec)[a-z]*\s*,?\s*(\d{4})?] *)
Definition pattern1 : regex :=
  Cats
    [ Grp 1 one_or_two_digits; ordinal_suffix; Plus is_space;
      Grp 2 month_names; Star is_letter;
      Star is_space; Opt (Chr ","); Star is_space;
      Opt (Grp 3 four_digits) ].

(** [(Jan|...|Dec)[a-z]*\s+(\d{1,2})(?:st|nd|rd|th)?\s*,?\s*(\d{4})?] *)
Definition pattern2 : regex :=
  Cats
    [ Grp 1 month_names; Star is_letter; Plus is_space;
      Grp 2 one_or_two_digits; ordinal_suffix;
      Star is_space; Opt (Chr ","); Star is_space;
      Opt (Grp 3 four_digits) ].

Definition months_table : list (string * Z) :=
  [ ("jan", 1); ("feb", 2); ("mar", 3); ("apr", 4); ("may", 5); ("jun", 6);
    ("jul", 7); ("aug", 8); ("sep", 9); ("oct", 10); ("nov", 11);
    ("dec", 12) ]%string.

(** [months[key]] *)
Definition months (key : text) : result Z :=
  match find (fun e => text_eqb key (str (fst e))) months_table with
  | Some e => Ok (snd e)
  | None => Raise KeyError
  end.

(** [int(m.group(i))]; a group that took no part is [None]. *)
Definition int_group (i : nat) (m : captures) : result Z :=
  match group i m with
  | Some s => int_of_digits s
  | None => Raise TypeError
  end.

(** [month_str.lower()[:3]] *)
Definition month_key (month_str : option text) : result text :=
  match month_str with
  | Some s => Ok (firstn 3 (text_lower s))
  | None => Raise AttributeError
  end.

(** Lines 91-97: the year given, or the one inferred from the clock. *)
Definition year_of (now : clock) (year_str : option text) (month : Z)
  : result Z :=
  match year_str with
  | Some (c :: s) => int_of_digits (c :: s)
  | _ =>
      let current_year := now_year now in
      if (month <? now_month now) && (now_month now - month >? 6)
      then Ok (current_year + 1)
      else Ok current_year
  end.

(** Lines 85-99: from the matched fields to the arguments of
    [datetime(year, month, day)]. *)
Definition date_fields (now : clock) (day : Z)
  (month_str year_str : option text) : result (Z * Z * Z) :=
  let* key := month_key month_str in
  let* month := months key in
  let* year := year_of now year_str month in
  Ok (year, month, day).

(** Lines 77-83: [day, month_str, year_str] of the pattern that
    matched; [None] when neither did (the early [return]). *)
Definition matched_fields (match1 match2 : option captures)
  : option (result (Z * option text * option text)) :=
  match match1, match2 with
  | Some m, _ =>
      Some (let* day := int_group 1 m in Ok (day, group 2 m, group 3 m))
  | None, Some m =>
      Some (let* day := int_group 2 m in Ok (day, group 1 m, group 3 m))
  | None, None => None
  end.

(** Lines 73-97: the arguments of the call [datetime(year, month, day)]
    of line 99; [None] when neither pattern matched. *)
Definition date_arguments (now : clock) (s : text)
  : option (result (Z * Z * Z)) :=
  let match1 := re_search pattern1 s in
  let match2 := re_search pattern2 s in
  match matched_fields match1 match2 with
  | None => None
  | Some fields =>
      Some (let* (day, month_str, year_str) := fields in
            date_fields now day month_str year_str)
  end.

(** Lines 69-102: the explicit-date rule. *)
Definition explicit_date (now : clock) (s : text)
  (posted_date_obj : datetime) : result datetime :=
  try_except
    (match date_arguments now s with
     | None => Ok posted_date_obj
     | Some arguments =>
         let* (year, month, day) := arguments in
         new_datetime year month day
     end)
    posted_date_obj.

Definition find_date_in_text (MY_SCHEDULE : schedule) (now : clock)
  (s default_date_str course_code : text) : list event * result datetime :=
  match s with
  | [] => ([], strptime default_date_str)
  | _ =>
      match strptime (firstn 10 default_date_str) with
      | Raise e => ([], Raise e)
      | Ok posted_date_obj =>
          match re_search next_class_regex s with
          | Some _ =>
              match
                get_next_class_date MY_SCHEDULE course_code posted_date_obj
              with
              | Raise e => ([], Raise e)
              | Ok (Some next_class_date) =>
                  ([Found_next_class course_code next_class_date],
                   Ok next_class_date)
              | Ok None => ([], explicit_date now s posted_date_obj)
              end
          | None => ([], explicit_date now s posted_date_obj)
          end
      end
  end.

(* ================================================================= *)
(** ** [main]: the announcements of one course (lines 129-143)

    The Canvas client and the calendar library are outside the
    program, and what they do is an input.
    - An announcement is the record of the attributes [main] reads
      (strings, [posted_at] possibly [None]).
    - The listing [course.get_discussion_topics(...)] is read page by
      page as the loop goes: it yields announcements, then ends or
      raises ([listing_raises]).
    - A calendar event is the record of the attributes [main] assigns;
      the operations of the calendar library on lines 140, 141 and 143
      return or raise ([calendar_library]).
    - [start_date] (line 110) is an argument.
    The calendar keeps the events as a set; [added] lists them in the
    order they were added.  The loop runs inside the [try] of line 117,
    after the loop over the assignments: an exception ends it, and the
    events added before stay in the calendar. *)

Record announcement : Type :=
  mkannouncement
    { title : text; message : text; posted_at : option text;
      html_url : text }.

(** A character of an event name: the name starts with an emoji, which
    lies outside the range of [text]. *)
Inductive name_char : Type :=
| Emoji (codepoint : Z)
| Plain (c : ascii).

Record calendar_event : Type :=
  mkcalendar_event
    { name : list name_char; begin : datetime; all_day : bool;
      description : text }.

(** [a > b] on two strings: by code point, a proper prefix being
    smaller. *)
Fixpoint str_gt (a b : text) : bool :=
  match a, b with
  | [], _ => false
  | _ :: _, [] => true
  | x :: a', y :: b' =>
      if code y <? code x then true
      else if code x <? code y then false
      else str_gt a' b'
  end.

(** Line 130: [ann.posted_at and ann.posted_at > start_date] *)
Definition posted_after (start_date : text) (ann : announcement) : bool :=
  match posted_at ann with
  | Some (c :: p) => str_gt (c :: p) start_date
  | _ => false
  end.

(** Line 134: [f"{ann.title} {ann.message}"] *)
Definition full_text (ann : announcement) : text :=
  title ann ++ str " " ++ message ann.

(** Line 139: the megaphone, U+1F4E2, then [f" {ann.title} ({course_code})"] *)
Definition announcement_name (ann : announcement) (course_code : text)
  : list name_char :=
  Emoji 128226
  :: map Plain (str " " ++ title ann ++ str " (" ++ course_code ++ str ")").

Definition newline : text := ["010"%char].

(** Line 142 *)
Definition announcement_description (ann : announcement) (posted : text)
  : text :=
  str "Originally Posted: " ++ firstn 10 posted ++ newline
  ++ html_url ann ++ newline ++ newline
  ++ firstn 200 (message ann) ++ str "...".

(** What the loop leaves behind: the lines printed, the events added to
    the calendar, and the exception that ended it, if any. *)
Record loop_outcome : Type :=
  mkoutcome
    { printed : list event; added : list calendar_event;
      raised : option exn }.

(** The calendar library, as far as lines 140-143 call it: the setter
    of [begin] given the resolved date, [make_all_day] on an event that
    begins on that date, and [cal.events.add] given the finished event.
    Each returns or raises. *)
Record calendar_library : Type :=
  mkcalendar_library
    { set_begin : datetime -> result unit;
      make_all_day : datetime -> result unit;
      events_add : calendar_event -> result unit }.

(** Lines 139-143: the event of one announcement, added to the
    calendar unless the library raises on the way. *)
Definition add_event (lib : calendar_library) (ann : announcement)
  (posted course_code : text) (parsed_date : datetime)
  : result calendar_event :=
  let e_name := announcement_name ann course_code in
  let* _ := set_begin lib parsed_date in
  let* _ := make_all_day lib parsed_date in
  let e :=
    mkcalendar_event e_name parsed_date true
      (announcement_description ann posted) in
  let* _ := events_add lib e in
  Ok e.

(** The loop over the announcements the listing yields, [anns];
    [listing_raises] is the exception the listing raises after them, if
    it does not simply end. *)
Fixpoint announcement_loop (lib : calendar_library) (MY_SCHEDULE : schedule)
  (now : clock) (start_date course_code : text) (anns : list announcement)
  (listing_raises : option exn) : loop_outcome :=
  match anns with
  | [] => mkoutcome [] [] listing_raises
  | ann :: anns' =>
      if posted_after start_date ann
      then
        match posted_at ann with
        | None =>
            announcement_loop lib MY_SCHEDULE now start_date course_code
              anns' listing_raises
        | Some posted =>
            match
              find_date_in_text MY_SCHEDULE now (full_text ann) posted
                course_code
            with
            | (out, Raise e) => mkoutcome out [] (Some e)
            | (out, Ok parsed_date) =>
                match add_event lib ann posted course_code parsed_date with
                | Raise e => mkoutcome out [] (Some e)
                | Ok e =>
                    let r :=
                      announcement_loop lib MY_SCHEDULE now start_date
                        course_code anns' listing_raises in
                    mkoutcome (out ++ printed r) (e :: added r) (raised r)
                end
            end
        end
      else
        announcement_loop lib MY_SCHEDULE now start_date course_code anns'
          listing_raises
  end.

(** A calendar library for the examples: [make_all_day] needs the day
    after the event, which [datetime] does not have after 9999-12-31. *)
Definition needs_next_day : calendar_library :=
  mkcalendar_library
    (fun _ => Ok tt)
    (fun d => let* _ := plus_days d 1 in Ok tt)
    (fun _ => Ok tt).

(* ================================================================= *)
(** ** The vocabulary of the properties *)

Definition weekday_index (d : Z) : Prop := 0 <= d <= 6.

(** A posted value is valid when its first 10 characters are the
    ["YYYY-MM-DD"] form of a date. *)
Definition valid_posted (default_date_str : text) (d : datetime) : Prop :=
  valid_date d = true /\ firstn 10 default_date_str = isoformat d.

(** [k in s] holds exactly when [k] is a substring of [s]. *)
Definition substring (k s : text) : Prop :=
  exists pre post, s = pre ++ k ++ post.

(** [d] is the least element of [l] that satisfies [P]. *)
Definition least_such (P : Z -> Prop) (l : list Z) (d : Z) : Prop :=
  In d l /\ P d /\ forall x, In x l -> P x -> d <= x.

(** The offset of the specification: up to the least class day after
    [refDay], or else round to the least class day of the next week. *)
Definition offset_rule (days : list Z) (refDay offset : Z) : Prop :=
  (exists d, least_such (fun x => refDay < x) days d /\ offset = d - refDay)
  \/
  ((forall x, In x days -> x <= refDay) /\
   exists d0, least_such (fun _ => True) days d0 /\
              offset = (7 - refDay) + d0).

(** A matched course: the loop of lines 32-35 selects a stored key, the
    key passes the test of line 37 (it is not the empty string), and it
    maps to [days]. *)
Definition matched_course (MY_SCHEDULE : schedule) (course_code : text)
  (days : list Z) : Prop :=
  exists key, find_base_code MY_SCHEDULE course_code = Some key
              /\ key <> [] /\ lookup key MY_SCHEDULE = Ok days.

(** What [month_day] must deliver for the day [n] of a year. *)
Definition month_day_ok (leapyear : bool) (n : Z) : bool :=
  let (m, d) := month_day leapyear n in
  (1 <=? m) && (m <=? 12) && (1 <=? d)
  && (d <=? DAYS_IN_MONTH m + (if (m =? 2) && leapyear then 1 else 0))
  && (DAYS_BEFORE_MONTH m + (if (2 <? m) && leapyear then 1 else 0) + d
      =? n + 1).

(** [matches r p q]: [r] can match the text between [p] and [q]. *)
Inductive matches : regex -> pos -> pos -> Prop :=
| M_Eps p : matches Eps p p
| M_Chr c x i prev s :
    lower x = lower c ->
    matches (Chr c) (mkpos i prev (x :: s)) (mkpos (S i) (Some x) s)
| M_Cls f x i prev s :
    f x = true ->
    matches (Cls f) (mkpos i prev (x :: s)) (mkpos (S i) (Some x) s)
| M_Cat r1 r2 p q t :
    matches r1 p q -> matches r2 q t -> matches (Cat r1 r2) p t
| M_Alt_l r1 r2 p q : matches r1 p q -> matches (Alt r1 r2) p q
| M_Alt_r r1 r2 p q : matches r2 p q -> matches (Alt r1 r2) p q
| M_Opt_some r p q : matches r p q -> matches (Opt r) p q
| M_Opt_none r p : matches (Opt r) p p
| M_Star_nil f p : matches (Star f) p p
| M_Star_cons f x i prev s q :
    f x = true ->
    matches (Star f) (mkpos (S i) (Some x) s) q ->
    matches (Star f) (mkpos i prev (x :: s)) q
| M_Grp i r p q : matches r p q -> matches (Grp i r) p q
| M_Bnd p : at_boundary p = true -> matches Bnd p p.

(** The character before the position reached after reading [t]. *)
Definition last_char (prev : option ascii) (t : text) : option ascii :=
  fold_left (fun _ c => Some c) t prev.

(** The position reached after reading [t]. *)
Definition after (i : nat) (prev : option ascii) (t s : text) : pos :=
  mkpos (i + List.length t) (last_char prev t) s.

(** [t] is the word [w], in any mix of upper and lower case. *)
Definition same_word (w : string) (t : text) : Prop :=
  map lower t = map lower (str w).

(** "next", white space, then "class", "lecture" or "session". *)
Definition next_phrase (t : text) : Prop :=
  exists n ws w,
    t = n ++ ws ++ w
    /\ same_word "next" n
    /\ ws <> [] /\ Forall (fun c => is_space c = true) ws
    /\ (same_word "class" w \/ same_word "lecture" w
        \/ same_word "session" w).

(** The text contains the phrase as whole words: no word character
    right before it or right after it. *)
Definition contains_next_phrase (s : text) : Prop :=
  exists pre phrase post,
    s = pre ++ phrase ++ post
    /\ next_phrase phrase
    /\ is_word_at (last_char None pre) = false
    /\ is_word_at (hd_error post) = false.

(** The condition of line 94. *)
Definition far_earlier_month (now : clock) (month : Z) : Prop :=
  month < now_month now /\ now_month now - month > 6.

(** C3 as stated: whenever the configuration does not decode to a
    mapping from course keys to lists of integers, the schedule is the
    empty mapping, the warning is printed and nothing is raised. *)
Definition malformed_config_claim (decoded : json_loads_outcome) : Prop :=
  (forall v, decoded = Decoded v -> as_schedule v = None) ->
  load_schedule decoded = ([Warning_could_not_parse], Ok (JObject [])).

(** C4 as the specification states it: for a matched course with a
    non-empty list of weekday indices, the answer is the reference date
    plus the offset of the rule, a date strictly after the reference
    date. *)
Definition next_class_offset_claim (MY_SCHEDULE : schedule)
  (course_code : text) (ref : datetime) : Prop :=
  valid_date ref = true ->
  forall days,
    matched_course MY_SCHEDULE course_code days ->
    days <> [] -> Forall weekday_index days ->
    exists offset r,
      offset_rule days (weekday ref) offset
      /\ get_next_class_date MY_SCHEDULE course_code ref = Ok (Some r)
      /\ plus_days ref offset = Ok r
      /\ toordinal ref < toordinal r
      /\ r <> ref.


(** C8 as stated: whenever the fields matched by a pattern do not form
    a date, the result is the fallback date. *)
Definition invalid_date_fallback_claim (MY_SCHEDULE : schedule)
  (now : clock) (s default_date_str course_code : text) : Prop :=
  forall fb y m d,
    valid_posted default_date_str fb ->
    date_arguments now s = Some (Ok (y, m, d)) ->
    valid_ymd y m d = false ->
    find_date_in_text MY_SCHEDULE now s default_date_str course_code
    = ([], Ok fb).

(** The same weekdays, in any order and with any repeats. *)
Definition same_weekdays (days days' : list Z) : Prop :=
  forall x, In x days <-> In x days'.


(** A date as the number [yyyymmdd]; on dates it orders as the
    calendar does. *)
Definition yyyymmdd (d : datetime) : Z :=
  year d * 10000 + month d * 100 + day d.

(** Every class of the pattern holds of a character exactly when it
    holds of the character in lower case. *)
Fixpoint case_blind (r : regex) : Prop :=
  match r with
  | Cls f | Star f => forall c, f (lower c) = f c
  | Cat r1 r2 | Alt r1 r2 => case_blind r1 /\ case_blind r2
  | Opt r1 | Grp _ r1 => case_blind r1
  | Eps | Chr _ | Bnd => True
  end.

Definition lower_pos (p : pos) : pos :=
  mkpos (index p) (option_map lower (before p)) (map lower (rest p)).

Definition lower_captures (caps : captures) : captures :=
  map (fun g => (fst g, map lower (snd g))) caps.

Definition lower_rmatch (m : rmatch) : rmatch :=
  (lower_captures (fst m), map lower (snd m)).

(** The announcements that pass the test of line 130. *)
Definition passing (start_date : text) (anns : list announcement)
  : list announcement :=
  filter (posted_after start_date) anns.




(** The calendar library accepts the event [ev]: none of its three
    operations raises on it. *)
Definition accepted (lib : calendar_library) (ev : calendar_event) : Prop :=
  set_begin lib (begin ev) = Ok tt
  /\ make_all_day lib (begin ev) = Ok tt
  /\ events_add lib ev = Ok tt.

(** The calendar library raises [e] on [ev]: the first of its three
    operations that raises, in the order of lines 140-143, raises
    [e]. *)
Definition refused (lib : calendar_library) (ev : calendar_event) (e : exn)
  : Prop :=
  set_begin lib (begin ev) = Raise e
  \/ (set_begin lib (begin ev) = Ok tt
      /\ make_all_day lib (begin ev) = Raise e)
  \/ (set_begin lib (begin ev) = Ok tt
      /\ make_all_day lib (begin ev) = Ok tt
      /\ events_add lib ev = Raise e).

(** [ev] is the event lines 131-143 build for [ann]: the resolved date
    as an all-day start, the name and the description. *)
Definition event_for (MY_SCHEDULE : schedule) (now : clock)
  (course_code : text) (ann : announcement) (ev : calendar_event) : Prop :=
  exists posted out,
    posted_at ann = Some posted
    /\ find_date_in_text MY_SCHEDULE now (full_text ann) posted course_code
       = (out, Ok (begin ev))
    /\ name ev = announcement_name ann course_code
    /\ all_day ev = true
    /\ description ev = announcement_description ann posted.

(** Resolving the date of [ann] raises [e]. *)
Definition raises_on (MY_SCHEDULE : schedule) (now : clock)
  (course_code : text) (ann : announcement) (e : exn) : Prop :=
  exists posted out,
    posted_at ann = Some posted
    /\ find_date_in_text MY_SCHEDULE now (full_text ann) posted course_code
       = (out, Raise e).

(** The date of [ann] is resolved, and the calendar library raises [e]
    on the event built for it. *)
Definition refused_for (lib : calendar_library) (MY_SCHEDULE : schedule)
  (now : clock) (course_code : text) (ann : announcement) (e : exn) : Prop :=
  exists ev,
    event_for MY_SCHEDULE now course_code ann ev /\ refused lib ev e.

(* ================================================================= *)
(** * Properties *)

(* ================================================================= *)
(** ** The calendar *)

Lemma days_before_year_cycles (a b c e : Z) :
  0 <= b <= 3 -> 0 <= c <= 24 -> 0 <= e <= 3 ->
  days_before_year (400 * a + 100 * b + 4 * c + e + 1)
  = 146097 * a + 36524 * b + 1461 * c + 365 * e.
Proof.
  intros Hb Hc He. unfold days_before_year.
  replace (400 * a + 100 * b + 4 * c + e + 1 - 1)
    with (400 * a + 100 * b + 4 * c + e) by lia.
  assert (H4 : (400 * a + 100 * b + 4 * c + e) / 4 = 100 * a + 25 * b + c).
  { symmetry. apply (Z.div_unique _ 4 _ e); lia. }
  assert (H100 : (400 * a + 100 * b + 4 * c + e) / 100 = 4 * a + b).
  { symmetry. apply (Z.div_unique _ 100 _ (4 * c + e)); lia. }
  assert (H400 : (400 * a + 100 * b + 4 * c + e) / 400 = a).
  { symmetry. apply (Z.div_unique _ 400 _ (100 * b + 4 * c + e)); lia. }
  rewrite H4, H100, H400. lia.
Qed.

Lemma is_leap_cycles (a b c e : Z) :
  0 <= b <= 3 -> 0 <= c <= 24 -> 0 <= e <= 3 ->
  is_leap (400 * a + 100 * b + 4 * c + e + 1)
  = (e =? 3) && (negb (c =? 24) || (b =? 3)).
Proof.
  intros Hb Hc He. unfold is_leap.
  set (y := 400 * a + 100 * b + 4 * c + e + 1).
  assert (H4 : y mod 4 = (e + 1) mod 4).
  { unfold y.
    replace (400 * a + 100 * b + 4 * c + e + 1)
      with ((e + 1) + (100 * a + 25 * b + c) * 4) by lia.
    apply Z.mod_add. lia. }
  assert (H100 : y mod 100 = (4 * c + e + 1) mod 100).
  { unfold y.
    replace (400 * a + 100 * b + 4 * c + e + 1)
      with ((4 * c + e + 1) + (4 * a + b) * 100) by lia.
    apply Z.mod_add. lia. }
  assert (H400 : y mod 400 = (100 * b + 4 * c + e + 1) mod 400).
  { unfold y.
    replace (400 * a + 100 * b + 4 * c + e + 1)
      with ((100 * b + 4 * c + e + 1) + a * 400) by lia.
    apply Z.mod_add. lia. }
  rewrite H4, H100, H400.
  destruct (Z.eqb_spec e 3) as [->|Ne].
  - replace ((3 + 1) mod 4) with 0 by reflexivity.
    rewrite Z.eqb_refl. cbn [andb].
    destruct (Z.eqb_spec c 24) as [->|Nc].
    + replace ((4 * 24 + 3 + 1) mod 100) with 0 by reflexivity.
      rewrite Z.eqb_refl. cbn [negb orb].
      destruct (Z.eqb_spec b 3) as [->|Nb]; [reflexivity|].
      rewrite Z.mod_small by lia.
      destruct (Z.eqb_spec (100 * b + 4 * 24 + 3 + 1) 0); [lia|reflexivity].
    + rewrite (Z.mod_small (4 * c + 3 + 1)) by lia.
      destruct (Z.eqb_spec (4 * c + 3 + 1) 0); [lia|reflexivity].
  - rewrite (Z.mod_small (e + 1)) by lia.
    destruct (Z.eqb_spec (e + 1) 0); [lia|reflexivity].
Qed.

Lemma month_day_table :
  forallb (fun n => month_day_ok false (Z.of_nat n)
                    && month_day_ok true (Z.of_nat n)) (seq 0 365) = true.
Proof. vm_compute. reflexivity. Qed.

Lemma month_day_correct (leapyear : bool) (n : Z) :
  0 <= n < 365 -> month_day_ok leapyear n = true.
Proof.
  intros Hn.
  pose proof month_day_table as T.
  rewrite forallb_forall in T.
  specialize (T (Z.to_nat n)).
  rewrite Z2Nat.id in T by lia.
  assert (Hin : In (Z.to_nat n) (seq 0 365)) by (apply in_seq; lia).
  apply T in Hin. apply andb_true_iff in Hin.
  destruct leapyear; tauto.
Qed.

Ltac bool_to_prop :=
  repeat match goal with
    | H : _ && _ = true |- _ => apply andb_true_iff in H; destruct H
    | H : (_ <=? _) = true |- _ => apply Z.leb_le in H
    | H : (_ <? _) = true |- _ => apply Z.ltb_lt in H
    | H : (_ =? _) = true |- _ => apply Z.eqb_eq in H
    | H : (_ >? _) = true |- _ => rewrite Z.gtb_ltb in H
    | H : (_ <=? _) = false |- _ => apply Z.leb_gt in H
    | H : (_ <? _) = false |- _ => apply Z.ltb_ge in H
    | H : (_ =? _) = false |- _ => apply Z.eqb_neq in H
    | H : (_ >? _) = false |- _ => rewrite Z.gtb_ltb in H
    end.

Lemma valid_ymd_intro (y m d : Z) :
  1 <= y <= 9999 -> 1 <= m <= 12 -> 1 <= d <= days_in_month y m ->
  valid_ymd y m d = true.
Proof.
  intros Hy Hm Hd. unfold valid_ymd, MINYEAR, MAXYEAR.
  repeat (apply andb_true_iff; split); apply Z.leb_le; lia.
Qed.

Lemma valid_ymd_elim (y m d : Z) :
  valid_ymd y m d = true ->
  1 <= y <= 9999 /\ 1 <= m <= 12 /\ 1 <= d <= days_in_month y m.
Proof.
  unfold valid_ymd, MINYEAR, MAXYEAR. intros H. bool_to_prop. lia.
Qed.

Lemma last_day_of_leap_year (y : Z) :
  1 <= y <= 9999 -> is_leap y = true ->
  valid_ymd y 12 31 = true /\ ymd2ord y 12 31 = days_before_year y + 366.
Proof.
  intros Hy L. split.
  - apply valid_ymd_intro; try lia. unfold days_in_month.
    change (12 =? 2) with false. cbn [andb DAYS_IN_MONTH]. lia.
  - unfold ymd2ord, days_before_month. rewrite L.
    change (2 <? 12) with true. cbn [andb DAYS_BEFORE_MONTH]. lia.
Qed.

(** Within the range of [datetime], [fromordinal] is a right inverse of
    [toordinal] and builds a date the constructor accepts. *)
Lemma ord2ymd_spec (o : Z) :
  1 <= o <= MAXORDINAL ->
  valid_date (ord2ymd o) = true /\ toordinal (ord2ymd o) = o.
Proof.
  unfold MAXORDINAL. intros Ho.
  unfold ord2ymd, DI400Y, DI100Y, DI4Y. cbv zeta.
  pose proof (Z.div_mod (o - 1) 146097 ltac:(lia)) as E1.
  pose proof (Z.mod_pos_bound (o - 1) 146097 ltac:(lia)) as B1.
  set (a := (o - 1) / 146097) in *. set (r1 := (o - 1) mod 146097) in *.
  pose proof (Z.div_mod r1 36524 ltac:(lia)) as E2.
  pose proof (Z.mod_pos_bound r1 36524 ltac:(lia)) as B2.
  set (b := r1 / 36524) in *. set (r2 := r1 mod 36524) in *.
  pose proof (Z.div_mod r2 1461 ltac:(lia)) as E3.
  pose proof (Z.mod_pos_bound r2 1461 ltac:(lia)) as B3.
  set (c := r2 / 1461) in *. set (r3 := r2 mod 1461) in *.
  pose proof (Z.div_mod r3 365 ltac:(lia)) as E4.
  pose proof (Z.mod_pos_bound r3 365 ltac:(lia)) as B4.
  set (e := r3 / 365) in *. set (r4 := r3 mod 365) in *.
  clearbody a r1 b r2 c r3 e r4.
  assert (Ha : 0 <= a <= 24) by lia.
  assert (Hb : 0 <= b <= 4) by lia.
  assert (Hc : 0 <= c <= 24) by lia.
  assert (He : 0 <= e <= 4) by lia.
  unfold valid_date, toordinal.
  destruct (Z.eqb_spec e 4) as [E|E]; cbn [orb].
  - (* the last day of a leap year *)
    assert (Hc' : c <= 23) by lia.
    assert (Hb' : b <= 3) by lia.
    replace (a * 400 + 1 + b * 100 + c * 4 + e - 1)
      with (400 * a + 100 * b + 4 * c + 3 + 1) by lia.
    cbn [year month day].
    assert (L : is_leap (400 * a + 100 * b + 4 * c + 3 + 1) = true).
    { rewrite is_leap_cycles by lia.
      destruct (Z.eqb_spec c 24); [lia|reflexivity]. }
    assert (Y : 1 <= 400 * a + 100 * b + 4 * c + 3 + 1 <= 9999) by lia.
    destruct (last_day_of_leap_year _ Y L) as [V O].
    split; [exact V|]. rewrite O, days_before_year_cycles by lia. lia.
  - destruct (Z.eqb_spec b 4) as [B|B].
    + (* the last day of a 400-year cycle *)
      replace (a * 400 + 1 + b * 100 + c * 4 + e - 1)
        with (400 * a + 100 * 3 + 4 * 24 + 3 + 1) by lia.
      cbn [year month day].
      assert (L : is_leap (400 * a + 100 * 3 + 4 * 24 + 3 + 1) = true)
        by (rewrite is_leap_cycles by lia; reflexivity).
      assert (Y : 1 <= 400 * a + 100 * 3 + 4 * 24 + 3 + 1 <= 9999) by lia.
      destruct (last_day_of_leap_year _ Y L) as [V O].
      split; [exact V|]. rewrite O, days_before_year_cycles by lia. lia.
    + replace (a * 400 + 1 + b * 100 + c * 4 + e)
        with (400 * a + 100 * b + 4 * c + e + 1) by lia.
      rewrite <- (is_leap_cycles a b c e) by lia.
      assert (Hyr : 1 <= 400 * a + 100 * b + 4 * c + e + 1 <= 9999).
      { split; [lia|].
        destruct (Z.eq_dec a 24); [|lia].
        destruct (Z.eq_dec b 3); [|lia].
        destruct (Z.eq_dec c 24); lia. }
      set (y := 400 * a + 100 * b + 4 * c + e + 1) in *.
      pose proof (month_day_correct (is_leap y) r4 B4) as M.
      unfold month_day_ok in M.
      destruct (month_day (is_leap y) r4) as [m d].
      cbn [year month day]. bool_to_prop.
      assert (Hy : days_before_year y
                   = 146097 * a + 36524 * b + 1461 * c + 365 * e)
        by (apply days_before_year_cycles; lia).
      split.
      * apply valid_ymd_intro; try lia.
        unfold days_in_month.
        destruct (Z.eqb_spec m 2) as [->|]; cbn [andb] in *;
          destruct (is_leap y); cbn in *; lia.
      * unfold ymd2ord, days_before_month. lia.
Qed.

Lemma weekday_range (dt : datetime) : 0 <= weekday dt <= 6.
Proof.
  unfold weekday.
  pose proof (Z.mod_pos_bound (toordinal dt + 6) 7 ltac:(lia)). lia.
Qed.

Lemma plus_days_in_range (dt : datetime) (n : Z) :
  1 <= toordinal dt + n <= MAXORDINAL ->
  plus_days dt n = Ok (ord2ymd (toordinal dt + n)).
Proof.
  intros [H1 H2]. unfold plus_days.
  apply Z.leb_le in H1, H2. rewrite H1, H2. reflexivity.
Qed.


Lemma plus_days_Ok (dt r : datetime) (n : Z) :
  plus_days dt n = Ok r ->
  valid_date r = true /\ toordinal r = toordinal dt + n.
Proof.
  unfold plus_days.
  destruct ((1 <=? toordinal dt + n) && (toordinal dt + n <=? MAXORDINAL))
    eqn:E; [|discriminate].
  intros [= <-]. bool_to_prop. apply ord2ymd_spec. lia.
Qed.


(* ================================================================= *)
(** ** Strings *)

Lemma text_eqb_eq (a b : text) : text_eqb a b = true <-> a = b.
Proof.
  revert b. induction a as [|x a IH]; intros [|y b]; simpl;
    try (split; [discriminate|discriminate]); try tauto.
  rewrite andb_true_iff, Ascii.eqb_eq, IH.
  split; [intros [-> ->]; reflexivity|intros [= -> ->]; auto].
Qed.

Lemma text_eqb_refl (a : text) : text_eqb a a = true.
Proof. apply text_eqb_eq. reflexivity. Qed.

Lemma starts_with_prefix (k s : text) :
  starts_with k s = true <-> exists post, s = k ++ post.
Proof.
  revert s. induction k as [|x k IH]; intros s; simpl.
  - split; [intros _; exists s; reflexivity|reflexivity].
  - destruct s as [|y s].
    + split; [discriminate|intros [post H]; discriminate].
    + rewrite andb_true_iff, Ascii.eqb_eq, IH. split.
      * intros [-> [post ->]]. exists post. reflexivity.
      * intros [post [= -> ->]]. split; [reflexivity|exists post; reflexivity].
Qed.

Lemma contains_substring (k s : text) :
  contains k s = true <-> substring k s.
Proof.
  unfold substring. induction s as [|c s IH].
  - simpl. rewrite orb_false_r, starts_with_prefix. split.
    + intros [post H]. exists [], post. exact H.
    + intros [pre [post H]]. destruct pre; simpl in H.
      * exists post. exact H.
      * discriminate.
  - cbn [contains]. rewrite orb_true_iff, starts_with_prefix, IH. split.
    + intros [[post H]|[pre [post H]]].
      * exists [], post. exact H.
      * exists (c :: pre), post. rewrite H. reflexivity.
    + intros [pre [post H]]. destruct pre as [|c' pre]; simpl in H.
      * left. exists post. exact H.
      * right. injection H as _ H. exists pre, post. exact H.
Qed.

(* ================================================================= *)
(** ** [sorted] *)

Lemma insert_perm (x : Z) (l : list Z) : Permutation (x :: l) (insert x l).
Proof.
  induction l as [|y l IH]; simpl.
  - apply Permutation_refl.
  - destruct (x <=? y).
    + apply Permutation_refl.
    + apply perm_trans with (y :: x :: l); [apply perm_swap|].
      apply perm_skip. exact IH.
Qed.

Lemma sorted_perm (l : list Z) : Permutation l (sorted l).
Proof.
  induction l as [|x l IH]; simpl.
  - apply perm_nil.
  - apply perm_trans with (x :: sorted l).
    + apply perm_skip. exact IH.
    + apply insert_perm.
Qed.

Lemma sorted_In (l : list Z) (x : Z) : In x (sorted l) <-> In x l.
Proof.
  split; intros H.
  - apply Permutation_in with (sorted l); [|exact H].
    apply Permutation_sym, sorted_perm.
  - apply Permutation_in with l; [apply sorted_perm|exact H].
Qed.

Lemma insert_sorted (x : Z) (l : list Z) :
  StronglySorted Z.le l -> StronglySorted Z.le (insert x l).
Proof.
  induction 1 as [|y l S IH F]; simpl.
  - constructor; constructor.
  - destruct (Z.leb_spec x y) as [L|L].
    + constructor.
      * constructor; assumption.
      * constructor; [exact L|].
        eapply Forall_impl; [|exact F]. intros z Hz. simpl in Hz. lia.
    + constructor; [exact IH|].
      apply Forall_forall. intros z Hz.
      apply (Permutation_in _ (Permutation_sym (insert_perm x l))) in Hz.
      destruct Hz as [<-|Hz]; [lia|].
      rewrite Forall_forall in F. apply F. exact Hz.
Qed.

Lemma sorted_sorted (l : list Z) : StronglySorted Z.le (sorted l).
Proof.
  induction l as [|x l IH]; simpl.
  - constructor.
  - apply insert_sorted. exact IH.
Qed.

Lemma sorted_nil (l : list Z) : sorted l = [] -> l = [].
Proof.
  intros H. pose proof (sorted_perm l) as P. rewrite H in P.
  apply Permutation_sym, Permutation_nil in P. exact P.
Qed.

(** The first element above a bound in a sorted list is the least one. *)
Lemma find_above_least (l : list Z) (i d : Z) :
  StronglySorted Z.le l ->
  find (fun day => day >? i) l = Some d ->
  In d l /\ i < d /\ forall x, In x l -> i < x -> d <= x.
Proof.
  induction 1 as [|a l S IH F]; simpl; [discriminate|].
  rewrite Z.gtb_ltb. destruct (Z.ltb_spec i a) as [L|L].
  - intros [= <-]. split; [left; reflexivity|]. split; [exact L|].
    intros x [<-|Hx] _; [lia|].
    rewrite Forall_forall in F. apply F. exact Hx.
  - intros H. destruct (IH H) as (I & G & M).
    split; [right; exact I|]. split; [exact G|].
    intros x [<-|Hx] Gx; [lia|]. apply M; assumption.
Qed.

Lemma find_above_none (l : list Z) (i : Z) :
  find (fun day => day >? i) l = None -> forall x, In x l -> x <= i.
Proof.
  intros H x Hx. pose proof (find_none _ _ H x Hx) as N. simpl in N.
  rewrite Z.gtb_ltb in N. apply Z.ltb_ge in N. exact N.
Qed.

Lemma sorted_head_least (a : Z) (l : list Z) :
  StronglySorted Z.le (a :: l) -> forall x, In x (a :: l) -> a <= x.
Proof.
  intros S x [<-|Hx]; [lia|].
  apply StronglySorted_inv in S as [_ F].
  rewrite Forall_forall in F. apply F. exact Hx.
Qed.

(* ================================================================= *)
(** ** [get_next_class_date] *)

Lemma days_before_year_nonneg (y : Z) : 1 <= y -> 0 <= days_before_year y.
Proof.
  intros Hy. unfold days_before_year. cbv zeta.
  pose proof (Z.div_pos (y - 1) 4 ltac:(lia) ltac:(lia)).
  pose proof (Z.div_pos (y - 1) 400 ltac:(lia) ltac:(lia)).
  assert ((y - 1) / 100 <= y - 1).
  { apply Z.div_le_upper_bound; lia. }
  lia.
Qed.

Lemma toordinal_positive (dt : datetime) :
  valid_date dt = true -> 1 <= toordinal dt.
Proof.
  unfold valid_date, toordinal, ymd2ord. intros V.
  apply valid_ymd_elim in V as (Hy & Hm & Hd).
  pose proof (days_before_year_nonneg (year dt) ltac:(lia)) as Y.
  assert (M : 0 <= days_before_month (year dt) (month dt)).
  { unfold days_before_month.
    assert (0 <= DAYS_BEFORE_MONTH (month dt)).
    { assert (C : month dt = 1 \/ month dt = 2 \/ month dt = 3 \/ month dt = 4
                  \/ month dt = 5 \/ month dt = 6 \/ month dt = 7
                  \/ month dt = 8 \/ month dt = 9 \/ month dt = 10
                  \/ month dt = 11 \/ month dt = 12) by lia.
      repeat (destruct C as [C|C]; [rewrite C; simpl; lia|]).
      rewrite C; simpl; lia. }
    destruct ((2 <? month dt) && is_leap (year dt)); lia. }
  lia.
Qed.

Lemma days_ahead_rule (days : list Z) (idx : Z) :
  days <> [] ->
  exists offset,
    wrap_days_ahead (sorted days) idx (scan_days_ahead (sorted days) idx)
    = Ok offset
    /\ offset_rule days idx offset.
Proof.
  intros Hne. unfold scan_days_ahead, wrap_days_ahead.
  pose proof (sorted_sorted days) as S.
  destruct (find (fun day => day >? idx) (sorted days)) as [d|] eqn:F.
  - destruct (find_above_least _ _ _ S F) as (I & G & M).
    exists (d - idx). split.
    + destruct (Z.eqb_spec (d - idx) 0); [lia|reflexivity].
    + left. exists d. split; [|reflexivity].
      split; [apply sorted_In; exact I|]. split; [exact G|].
      intros x Hx Gx. apply M; [apply sorted_In; exact Hx|exact Gx].
  - rewrite Z.eqb_refl.
    destruct (sorted days) as [|first rest] eqn:E.
    + apply sorted_nil in E. contradiction.
    + assert (To : forall x, In x days -> In x (first :: rest))
        by (intros x Hx; rewrite <- E; apply sorted_In; exact Hx).
      assert (From : In first days)
        by (apply sorted_In; rewrite E; left; reflexivity).
      exists (7 - idx + first). split; [reflexivity|].
      right. split.
      * intros x Hx. apply (find_above_none _ _ F). apply To. exact Hx.
      * exists first. split; [|reflexivity].
        split; [exact From|]. split; [exact I|].
        intros x Hx _. apply (sorted_head_least first rest S).
        apply To. exact Hx.
Qed.

Lemma offset_rule_bounds (days : list Z) (idx offset : Z) :
  Forall weekday_index days -> 0 <= idx <= 6 ->
  offset_rule days idx offset ->
  1 <= offset <= 7 /\ In ((idx + offset) mod 7) days.
Proof.
  intros W Hi R. rewrite Forall_forall in W. unfold weekday_index in W.
  destruct R as [(d & (I & G & _) & ->)|(A & d0 & (I & _ & _) & ->)].
  - pose proof (W d I). split; [lia|].
    replace (idx + (d - idx)) with d by lia.
    rewrite Z.mod_small by lia. exact I.
  - pose proof (W d0 I). pose proof (A d0 I). split; [lia|].
    replace (idx + (7 - idx + d0)) with (d0 + 1 * 7) by lia.
    rewrite Z.mod_add by lia. rewrite Z.mod_small by lia. exact I.
Qed.

Lemma find_base_code_first (pre post : schedule) (key : text)
  (days : list Z) (course_code : text) :
  (forall k d, In (k, d) pre -> contains k course_code = false) ->
  contains key course_code = true ->
  find_base_code (pre ++ (key, days) :: post) course_code = Some key
  /\ lookup key (pre ++ (key, days) :: post) = Ok days.
Proof.
  intros Hpre Hkey. unfold find_base_code.
  induction pre as [|[k d] pre IH]; simpl.
  - rewrite Hkey, text_eqb_refl. split; reflexivity.
  - assert (Hk : contains k course_code = false)
      by (apply (Hpre k d); left; reflexivity).
    rewrite Hk.
    destruct (text_eqb key k) eqn:E.
    + apply text_eqb_eq in E. subst k. congruence.
    + apply IH. intros k' d' H. apply (Hpre k' d'). right. exact H.
Qed.

Lemma find_base_code_none (MY_SCHEDULE : schedule) (course_code : text) :
  (forall k d, In (k, d) MY_SCHEDULE -> contains k course_code = false) ->
  find_base_code MY_SCHEDULE course_code = None.
Proof.
  intros H. unfold find_base_code.
  induction MY_SCHEDULE as [|[k d] m IH]; simpl; [reflexivity|].
  rewrite (H k d) by (left; reflexivity).
  apply IH. intros k' d' H'. apply (H k' d'). right. exact H'.
Qed.

Lemma get_next_class_date_matched (MY_SCHEDULE : schedule)
  (course_code : text) (posted_date_obj : datetime) (days : list Z) :
  matched_course MY_SCHEDULE course_code days ->
  get_next_class_date MY_SCHEDULE course_code posted_date_obj
  = next_class_from days posted_date_obj.
Proof.
  intros (key & F & Hk & L). unfold get_next_class_date.
  destruct MY_SCHEDULE as [|e m]; [discriminate|].
  rewrite F. destruct key; [contradiction|].
  rewrite L. reflexivity.
Qed.


(** The whole of [next_class_from] for a non-empty list of weekday
    indices: the offset of the rule, between 1 and 7, added to the
    reference date when the sum is a date. *)
Lemma next_class_from_rule (days : list Z) (ref : datetime) :
  days <> [] -> Forall weekday_index days ->
  exists offset,
    offset_rule days (weekday ref) offset
    /\ 1 <= offset <= 7
    /\ In ((weekday ref + offset) mod 7) days
    /\ next_class_from days ref
       = (let* next := plus_days ref offset in Ok (Some next)).
Proof.
  intros Hne W.
  destruct (days_ahead_rule days (weekday ref) Hne) as (offset & E & R).
  destruct (offset_rule_bounds _ _ _ W (weekday_range ref) R) as [B I].
  exists offset. repeat split; try assumption; try lia.
  unfold next_class_from. cbv zeta. rewrite E. reflexivity.
Qed.

Lemma matched_course_example :
  matched_course [(str "CS 363", [1; 3])] (str "CS 363-001 Fall 2024") [1; 3].
Proof.
  exists (str "CS 363"). split; [reflexivity|split; [discriminate|reflexivity]].
Qed.

(** C4, counterexample: on Friday 9999-12-31 the next Tuesday is not a
    [datetime]; the addition raises [OverflowError]. *)
Lemma next_class_offset_claim_fails_at_max_date :
  ~ next_class_offset_claim [(str "CS 363", [1])] (str "CS 363")
      (mkdate 9999 12 31).
Proof.
  intros H.
  destruct (H eq_refl [1]) as (offset & r & _ & G & _).
  - exists (str "CS 363"). split; [reflexivity|split; [discriminate|reflexivity]].
  - discriminate.
  - repeat constructor; unfold weekday_index; lia.
  - vm_compute in G. discriminate.
Qed.

(** C4 (amended): for a matched course with a non-empty list of weekday
    indices in [0,6], [get_next_class_date] is the reference date plus
    the offset of the rule: up to the least stored weekday after the
    reference weekday, or else [(7 - refDay)] plus the least stored
    weekday.  Whenever that sum is not after 9999-12-31 it is returned,
    and it is strictly after the reference date. *)
Theorem next_class_offset (MY_SCHEDULE : schedule) (course_code : text)
  (ref : datetime) (days : list Z) :
  valid_date ref = true ->
  matched_course MY_SCHEDULE course_code days ->
  days <> [] -> Forall weekday_index days ->
  exists offset,
    offset_rule days (weekday ref) offset
    /\ get_next_class_date MY_SCHEDULE course_code ref
       = (let* next := plus_days ref offset in Ok (Some next))
    /\ (toordinal ref + offset <= MAXORDINAL ->
        exists r,
          get_next_class_date MY_SCHEDULE course_code ref = Ok (Some r)
          /\ plus_days ref offset = Ok r
          /\ toordinal ref < toordinal r
          /\ r <> ref).
Proof.
  intros V M Hne W.
  destruct (next_class_from_rule days ref Hne W) as (offset & R & B & _ & E).
  rewrite <- (get_next_class_date_matched _ _ _ _ M) in E.
  exists offset. split; [exact R|]. split; [exact E|].
  intros Hmax. pose proof (toordinal_positive ref V) as P.
  exists (ord2ymd (toordinal ref + offset)).
  assert (A : plus_days ref offset = Ok (ord2ymd (toordinal ref + offset)))
    by (apply plus_days_in_range; lia).
  destruct (plus_days_Ok _ _ _ A) as [_ O].
  rewrite E, A. repeat split; try reflexivity; try lia.
  intros Heq. rewrite Heq in O. lia.
Qed.

Lemma next_class_offset_witness :
  exists offset,
    offset_rule [1; 3] (weekday (mkdate 2024 1 3)) offset
    /\ get_next_class_date [(str "CS 363", [1; 3])]
         (str "CS 363-001 Fall 2024") (mkdate 2024 1 3)
       = (let* next := plus_days (mkdate 2024 1 3) offset in Ok (Some next))
    /\ (toordinal (mkdate 2024 1 3) + offset <= MAXORDINAL ->
        exists r,
          get_next_class_date [(str "CS 363", [1; 3])]
            (str "CS 363-001 Fall 2024") (mkdate 2024 1 3) = Ok (Some r)
          /\ plus_days (mkdate 2024 1 3) offset = Ok r
          /\ toordinal (mkdate 2024 1 3) < toordinal r
          /\ r <> mkdate 2024 1 3).
Proof.
  apply (next_class_offset [(str "CS 363", [1; 3])]
           (str "CS 363-001 Fall 2024") (mkdate 2024 1 3) [1; 3]).
  - reflexivity.
  - exact matched_course_example.
  - discriminate.
  - repeat constructor; unfold weekday_index; lia.
Defined.




(** The examples of the specification: Tuesday and Thursday classes,
    asked on Wednesday 2024-01-03 and on Friday 2024-01-05. *)
Example next_class_wednesday :
  get_next_class_date [(str "CS 363", [1; 3])] (str "CS 363-001 Fall 2024")
    (mkdate 2024 1 3) = Ok (Some (mkdate 2024 1 4)).
Proof. vm_compute. reflexivity. Qed.

Example next_class_friday :
  get_next_class_date [(str "CS 363", [1; 3])] (str "CS 363-001 Fall 2024")
    (mkdate 2024 1 5) = Ok (Some (mkdate 2024 1 9)).
Proof. vm_compute. reflexivity. Qed.

(** C9: [get_next_class_date] selects the first stored key, in the
    order of the schedule, that is a substring of the course identifier:
    the answer is computed from that key's weekday list (and there is no
    answer when that key is the empty string); when no stored key is a
    substring of the identifier there is no answer.  The identifier
    ["CS 363-001 Fall 2024"] selects the key ["CS 363"]. *)
Theorem course_key_substring_matching (MY_SCHEDULE : schedule)
  (course_code : text) (ref : datetime) :
  ((forall k d, In (k, d) MY_SCHEDULE -> ~ substring k course_code) ->
   find_base_code MY_SCHEDULE course_code = None
   /\ get_next_class_date MY_SCHEDULE course_code ref = Ok None)
  /\
  (forall pre key days post,
     MY_SCHEDULE = pre ++ (key, days) :: post ->
     (forall k d, In (k, d) pre -> ~ substring k course_code) ->
     substring key course_code ->
     find_base_code MY_SCHEDULE course_code = Some key
     /\ (key <> [] ->
         get_next_class_date MY_SCHEDULE course_code ref
         = next_class_from days ref)
     /\ (key = [] ->
         get_next_class_date MY_SCHEDULE course_code ref = Ok None))
  /\
  find_base_code [(str "CS 363", [1; 3])] (str "CS 363-001 Fall 2024")
  = Some (str "CS 363").
Proof.
  split; [|split].
  - intros H.
    assert (F : find_base_code MY_SCHEDULE course_code = None).
    { apply find_base_code_none. intros k d I.
      destruct (contains k course_code) eqn:E; [|reflexivity].
      apply contains_substring in E. destruct (H k d I E). }
    split; [exact F|]. unfold get_next_class_date. rewrite F.
    destruct MY_SCHEDULE; reflexivity.
  - intros pre key days post -> Hpre Hkey.
    assert (Hpre' : forall k d, In (k, d) pre ->
                                contains k course_code = false).
    { intros k d I. destruct (contains k course_code) eqn:E; [|reflexivity].
      apply contains_substring in E. destruct (Hpre k d I E). }
    apply contains_substring in Hkey.
    destruct (find_base_code_first pre post key days course_code Hpre' Hkey)
      as [F L].
    split; [exact F|]. split.
    + intros Hne. apply get_next_class_date_matched.
      exists key. auto.
    + intros ->. unfold get_next_class_date. rewrite F.
      destruct pre; reflexivity.
  - reflexivity.
Qed.

Lemma course_key_substring_matching_witness :
  find_base_code [(str "MATH 205", [0; 2; 4]); (str "CS 363", [1; 3])]
    (str "CS 363-001 Fall 2024") = Some (str "CS 363")
  /\ get_next_class_date
       [(str "MATH 205", [0; 2; 4]); (str "CS 363", [1; 3])]
       (str "CS 363-001 Fall 2024") (mkdate 2024 1 3)
     = next_class_from [1; 3] (mkdate 2024 1 3)
  /\ get_next_class_date
       [(str "MATH 205", [0; 2; 4]); (str "CS 363", [1; 3])]
       (str "PHYS 101") (mkdate 2024 1 3) = Ok None.
Proof.
  pose proof (course_key_substring_matching
                [(str "MATH 205", [0; 2; 4]); (str "CS 363", [1; 3])]
                (str "CS 363-001 Fall 2024") (mkdate 2024 1 3))
    as (_ & Hsel & _).
  pose proof (course_key_substring_matching
                [(str "MATH 205", [0; 2; 4]); (str "CS 363", [1; 3])]
                (str "PHYS 101") (mkdate 2024 1 3))
    as (Hnone & _ & _).
  destruct (Hsel [(str "MATH 205", [0; 2; 4])] (str "CS 363") [1; 3] [])
    as (F & G & _).
  - reflexivity.
  - intros k d [[= <- <-]|[]] S.
    apply contains_substring in S. discriminate.
  - apply contains_substring. reflexivity.
  - split; [exact F|]. split; [apply G; discriminate|].
    apply Hnone. intros k d [[= <- <-]|[[= <- <-]|[]]] S;
      apply contains_substring in S; discriminate.
Defined.

(* ================================================================= *)
(** ** [strptime] on a date in ISO format *)

Lemma in_range_cases (n lo : Z) (len : nat) :
  lo <= n < lo + Z.of_nat len ->
  In n (map (fun k => lo + Z.of_nat k) (seq 0 len)).
Proof.
  intros H. apply in_map_iff. exists (Z.to_nat (n - lo)). split; [lia|].
  apply in_seq. lia.
Qed.

Ltac cases_of n lo len :=
  let C := fresh "C" in
  assert (C : In n (map (fun k => lo + Z.of_nat k) (seq 0 len)))
    by (apply in_range_cases; lia);
  cbv [map seq Z.of_nat Pos.of_succ_nat Pos.succ Z.add Pos.add Pos.add_carry]
    in C;
  repeat (destruct C as [C|C]; [symmetry in C|]); [..|destruct C].

Lemma digit_char_cases (n : Z) :
  exists k, 0 <= k <= 9 /\ n mod 10 = k
            /\ digit_char n = ascii_of_N (Z.to_N (48 + k)).
Proof.
  exists (n mod 10). pose proof (Z.mod_pos_bound n 10 ltac:(lia)).
  repeat split; try lia.
Qed.

Lemma digit_char_facts (n : Z) :
  is_digit (digit_char n) = true
  /\ is_space (digit_char n) = false
  /\ digit_value (digit_char n) = n mod 10.
Proof.
  destruct (digit_char_cases n) as (k & Hk & -> & ->).
  cases_of k 0 10%nat; subst k; repeat split; reflexivity.
Qed.

Lemma is_digit_digit_char (n : Z) : is_digit (digit_char n) = true.
Proof. apply digit_char_facts. Qed.

Lemma int_of_four_digits (y : Z) :
  0 <= y <= 9999 ->
  int_of_digits
    (lstrip [digit_char (y / 1000); digit_char (y / 100);
             digit_char (y / 10); digit_char y]) = Ok y.
Proof.
  intros Hy.
  destruct (digit_char_facts (y / 1000)) as (D1 & S1 & V1).
  destruct (digit_char_facts (y / 100)) as (D2 & _ & V2).
  destruct (digit_char_facts (y / 10)) as (D3 & _ & V3).
  destruct (digit_char_facts y) as (D4 & _ & V4).
  cbn [lstrip]. rewrite S1. unfold int_of_digits.
  cbn [forallb fold_left]. rewrite D1, D2, D3, D4, V1, V2, V3, V4.
  cbn [andb]. f_equal.
  Z.div_mod_to_equations. lia.
Qed.

Lemma int_of_two_digits (n : Z) :
  0 <= n <= 99 ->
  int_of_digits (lstrip [digit_char (n / 10); digit_char n]) = Ok n.
Proof.
  intros Hn.
  destruct (digit_char_facts (n / 10)) as (D1 & S1 & V1).
  destruct (digit_char_facts n) as (D2 & _ & V2).
  cbn [lstrip]. rewrite S1. unfold int_of_digits.
  cbn [forallb fold_left]. rewrite D1, D2, V1, V2.
  cbn [andb]. f_equal.
  Z.div_mod_to_equations. lia.
Qed.

Lemma exec_Cat (r1 r2 : regex) (p : pos) (caps : captures)
  (k : pos -> captures -> option rmatch) :
  exec (Cat r1 r2) p caps k
  = exec r1 p caps (fun p' caps' => exec r2 p' caps' k).
Proof. reflexivity. Qed.

(** The year group: four digits, whatever follows. *)
Lemma exec_year_group (c1 c2 c3 c4 : ascii) (s : text) (caps : captures)
  (k : pos -> captures -> option rmatch) :
  is_digit c1 = true -> is_digit c2 = true ->
  is_digit c3 = true -> is_digit c4 = true ->
  exec (Grp 1 four_digits) (start (c1 :: c2 :: c3 :: c4 :: s)) caps k
  = k (mkpos 4 (Some c4) s) ((1%nat, [c1; c2; c3; c4]) :: caps).
Proof.
  intros H1 H2 H3 H4.
  cbn [exec four_digits Cats start rest index before].
  rewrite H1, H2, H3, H4. reflexivity.
Qed.

(** After the year: ["-MM-DD"], zero padded. *)
Lemma exec_month_and_day (m d : Z) (c4 : ascii) (yyyy s : text) :
  1 <= m <= 12 -> 1 <= d <= 31 ->
  exec month_and_day_regex
    (mkpos 4 (Some c4)
       ("-"%char :: digit_char (m / 10) :: digit_char m
        :: "-"%char :: digit_char (d / 10) :: digit_char d :: s))
    [(1%nat, yyyy)] accept
  = Some ([ (3%nat, [digit_char (d / 10); digit_char d]);
            (2%nat, [digit_char (m / 10); digit_char m]);
            (1%nat, yyyy) ], s).
Proof.
  intros Hm Hd.
  cases_of m 1 12%nat; subst m; cases_of d 1 31%nat; subst d; reflexivity.
Qed.

Lemma days_in_month_le_31 (y m : Z) :
  1 <= m <= 12 -> days_in_month y m <= 31.
Proof.
  intros Hm. unfold days_in_month.
  destruct ((m =? 2) && is_leap y); [lia|].
  cases_of m 1 12%nat; subst m; cbn; lia.
Qed.

Lemma match_at_isoformat (dt : datetime) (s : text) :
  valid_date dt = true ->
  match_at strptime_regex (start (isoformat dt ++ s))
  = Some ([ (3%nat, [digit_char (day dt / 10); digit_char (day dt)]);
            (2%nat, [digit_char (month dt / 10); digit_char (month dt)]);
            (1%nat, [digit_char (year dt / 1000); digit_char (year dt / 100);
                     digit_char (year dt / 10); digit_char (year dt)]) ], s).
Proof.
  intros V. apply valid_ymd_elim in V as (Hy & Hm & Hd).
  pose proof (days_in_month_le_31 (year dt) (month dt) Hm) as Hd'.
  unfold match_at, strptime_regex, isoformat.
  cbn [app]. rewrite exec_Cat.
  rewrite exec_year_group by apply is_digit_digit_char.
  apply exec_month_and_day; lia.
Qed.

(** A date in ISO format parses back to itself. *)
Lemma strptime_isoformat (dt : datetime) :
  valid_date dt = true -> strptime (isoformat dt) = Ok dt.
Proof.
  intros V. unfold strptime.
  rewrite <- (app_nil_r (isoformat dt)), (match_at_isoformat dt [] V).
  apply valid_ymd_elim in V as V'. destruct V' as (Hy & Hm & Hd).
  pose proof (days_in_month_le_31 (year dt) (month dt) Hm) as Hd'.
  unfold group_int. cbn [group Nat.eqb].
  rewrite int_of_four_digits, !int_of_two_digits by lia.
  cbn [bind]. unfold new_datetime. unfold valid_date in V. rewrite V.
  destruct dt; reflexivity.
Qed.

(** With anything after the date, [strptime] fails: unconverted data
    remains. *)
Lemma strptime_isoformat_extra (dt : datetime) (c : ascii) (s : text) :
  valid_date dt = true ->
  strptime (isoformat dt ++ c :: s) = Raise ValueError.
Proof.
  intros V. unfold strptime.
  rewrite (match_at_isoformat dt (c :: s) V). reflexivity.
Qed.

Lemma strptime_valid (s : text) (dt : datetime) :
  strptime s = Ok dt -> valid_date dt = true.
Proof.
  unfold strptime.
  destruct (match_at strptime_regex (start s)) as [[caps r]|]; [|discriminate].
  destruct r; [|discriminate].
  destruct (group_int 1 caps); [|discriminate].
  destruct (group_int 2 caps); [|discriminate].
  destruct (group_int 3 caps); [|discriminate].
  cbn [bind]. unfold new_datetime.
  destruct (valid_ymd a a0 a1) eqn:V; [|discriminate].
  intros [= <-]. exact V.
Qed.

Lemma strptime_posted (default_date_str : text) (dt : datetime) :
  valid_posted default_date_str dt ->
  strptime (firstn 10 default_date_str) = Ok dt.
Proof.
  intros [V E]. rewrite E. apply strptime_isoformat. exact V.
Qed.

(* ================================================================= *)
(** ** The matcher finds a match whenever there is one *)

Lemma orelse_l {A : Type} (a b : option A) : a <> None -> orelse a b <> None.
Proof. destruct a; [discriminate|contradiction]. Qed.

Lemma orelse_r {A : Type} (a b : option A) : b <> None -> orelse a b <> None.
Proof. destruct a; [discriminate|auto]. Qed.

Lemma star_complete (f : ascii -> bool) (p q : pos) :
  matches (Star f) p q ->
  forall caps k, (forall caps', k q caps' <> None) ->
  star f (index p) (before p) (rest p) caps k <> None.
Proof.
  intros M. remember (Star f) as r eqn:R.
  induction M; try discriminate; injection R as ->; intros caps k Hk.
  - destruct p as [i prev s]. cbn [index before rest].
    destruct s as [|c s]; cbn [star]; [apply Hk|].
    destruct (f c); [apply orelse_r|]; apply Hk.
  - cbn [index before rest star]. rewrite H.
    apply orelse_l. apply (IHM eq_refl). exact Hk.
Qed.

Theorem exec_complete (r : regex) (p q : pos) :
  matches r p q ->
  forall caps k, (forall caps', k q caps' <> None) ->
  exec r p caps k <> None.
Proof.
  intros M. induction M; intros caps k Hk; cbn [exec rest index before].
  - apply Hk.
  - rewrite H, Ascii.eqb_refl. apply Hk.
  - rewrite H. apply Hk.
  - apply IHM1. intros caps'. apply IHM2. exact Hk.
  - apply orelse_l. apply IHM. exact Hk.
  - apply orelse_r. apply IHM. exact Hk.
  - apply orelse_l. apply IHM. exact Hk.
  - apply orelse_r. apply Hk.
  - apply (star_complete f p p (M_Star_nil f p)). exact Hk.
  - apply (star_complete f _ q
             (M_Star_cons f x i prev s q H M)). exact Hk.
  - apply IHM. intros caps'. apply Hk.
  - rewrite H. apply Hk.
Qed.

Lemma after_cons (i : nat) (prev : option ascii) (x : ascii) (t s : text) :
  after i prev (x :: t) s = after (S i) (Some x) t s.
Proof.
  unfold after. cbn [List.length last_char fold_left]. f_equal. lia.
Qed.

Lemma after_nil (i : nat) (prev : option ascii) (s : text) :
  after i prev [] s = mkpos i prev s.
Proof. unfold after. cbn. f_equal. lia. Qed.

Lemma after_app (i : nat) (prev : option ascii) (t u s : text) :
  after i prev (t ++ u) s
  = after (i + List.length t) (last_char prev t) u s.
Proof.
  revert i prev. induction t as [|x t IH]; intros i prev.
  - cbn [app List.length last_char fold_left]. f_equal. lia.
  - cbn [app]. rewrite after_cons, IH.
    cbn [List.length last_char fold_left]. f_equal. lia.
Qed.

Lemma matches_Lit (w t : text) (i : nat) (prev : option ascii) (s : text) :
  map lower t = map lower w ->
  matches (Lit w) (mkpos i prev (t ++ s)) (after i prev t s).
Proof.
  revert t i prev. induction w as [|c w IH]; intros t i prev E.
  - destruct t; [|discriminate]. rewrite after_nil. apply M_Eps.
  - destruct t as [|x t]; [discriminate|].
    injection E as Ex Et. rewrite after_cons. cbn [app Lit].
    destruct w as [|c' w].
    + destruct t; [|discriminate]. rewrite after_nil.
      apply M_Chr. exact Ex.
    + apply M_Cat with (mkpos (S i) (Some x) (t ++ s)).
      * apply M_Chr. exact Ex.
      * apply IH. exact Et.
Qed.

Lemma matches_Star (f : ascii -> bool) (t : text) (i : nat)
  (prev : option ascii) (s : text) :
  Forall (fun c => f c = true) t ->
  matches (Star f) (mkpos i prev (t ++ s)) (after i prev t s).
Proof.
  intros F. revert i prev. induction F as [|x t Hx F IH]; intros i prev.
  - rewrite after_nil. apply M_Star_nil.
  - rewrite after_cons. cbn [app]. apply M_Star_cons; [exact Hx|]. apply IH.
Qed.

Lemma matches_Plus (f : ascii -> bool) (t : text) (i : nat)
  (prev : option ascii) (s : text) :
  t <> [] -> Forall (fun c => f c = true) t ->
  matches (Plus f) (mkpos i prev (t ++ s)) (after i prev t s).
Proof.
  intros Hne F. destruct F as [|x t Hx F]; [contradiction|].
  rewrite after_cons. cbn [app]. unfold Plus.
  apply M_Cat with (mkpos (S i) (Some x) (t ++ s)).
  - apply M_Cls. exact Hx.
  - apply matches_Star. exact F.
Qed.

(** [re.search] succeeds when the pattern can match somewhere. *)
Lemma search_from_complete (r : regex) (pre s : text) (i : nat)
  (prev : option ascii) (q : pos) :
  matches r (after i prev pre s) q ->
  search_from r i prev (pre ++ s) <> None.
Proof.
  revert i prev. induction pre as [|c pre IH]; intros i prev M.
  - rewrite after_nil in M. cbn [app].
    assert (H : match_at r (mkpos i prev s) <> None).
    { unfold match_at. apply (exec_complete r _ q M).
      intros caps'. discriminate. }
    destruct s; cbn [search_from];
      destruct (match_at r _); try discriminate; contradiction.
  - rewrite after_cons in M. cbn [app search_from].
    destruct (match_at r _); [discriminate|]. apply IH. exact M.
Qed.

(* ================================================================= *)
(** ** The "next class" phrase *)

Lemma lower_letter_is_word (x : ascii) :
  is_letter (lower x) = true -> is_word x = true.
Proof.
  destruct x as [[] [] [] [] [] [] [] []]; vm_compute; congruence.
Qed.

Lemma same_word_chars (w : string) (t : text) :
  forallb is_letter (map lower (str w)) = true ->
  same_word w t ->
  List.length t = List.length (str w)
  /\ Forall (fun c => is_word c = true) t.
Proof.
  unfold same_word. generalize (str w) as u. clear w.
  induction t as [|x t IH]; intros [|c u] L E; try discriminate.
  - split; [reflexivity|constructor].
  - injection E as Ex Et. cbn [map forallb] in L.
    apply andb_true_iff in L as [Lc Lu].
    destruct (IH u Lu Et) as [Hl Hw].
    split; [cbn; congruence|].
    constructor; [|exact Hw].
    apply lower_letter_is_word. rewrite Ex. exact Lc.
Qed.

Lemma last_char_app (prev : option ascii) (a b : text) :
  last_char prev (a ++ b) = last_char (last_char prev a) b.
Proof. unfold last_char. apply fold_left_app. Qed.

Lemma last_char_word (prev : option ascii) (t : text) :
  t <> [] -> Forall (fun c => is_word c = true) t ->
  is_word_at (last_char prev t) = true.
Proof.
  intros Hne F. revert prev. induction F as [|x t Hx F IH]; intros prev.
  - contradiction.
  - cbn [last_char fold_left]. destruct t as [|y t].
    + exact Hx.
    + apply (IH ltac:(discriminate) (Some x)).
Qed.

Lemma matches_next_phrase (i : nat) (prev : option ascii)
  (phrase post : text) :
  next_phrase phrase ->
  is_word_at prev = false ->
  is_word_at (hd_error post) = false ->
  matches next_class_regex (mkpos i prev (phrase ++ post))
    (after i prev phrase post).
Proof.
  intros (n & ws & w & -> & Hn & Hne & Hws & Hw) Hprev Hpost.
  destruct (same_word_chars "next" n eq_refl Hn) as [Ln Wn].
  assert (Hw' : exists word,
             same_word word w
             /\ forallb is_letter (map lower (str word)) = true
             /\ List.length (str word) <> 0%nat
             /\ (word = "class" \/ word = "lecture" \/ word = "session")%string).
  { destruct Hw as [H|[H|H]];
      [exists "class"%string|exists "lecture"%string|exists "session"%string];
      (split; [exact H|]); (split; [reflexivity|]);
      (split; [discriminate|]); auto. }
  destruct Hw' as (word & Hword & Lword & Nword & Which).
  destruct (same_word_chars word w Lword Hword) as [Lw Ww].
  assert (Hwne : w <> []) by (intros ->; cbn in Lw; congruence).
  (* the alternative for this word *)
  assert (A : matches
                (Cats [Word "next"; Plus is_space; Word word])
                (mkpos i prev ((n ++ ws ++ w) ++ post))
                (after i prev (n ++ ws ++ w) post)).
  { rewrite <- !app_assoc, !after_app.
    cbn [Cats].
    eapply M_Cat; [apply matches_Lit; exact Hn|].
    unfold after at 1.
    eapply M_Cat; [apply matches_Plus; assumption|].
    unfold after at 1. apply matches_Lit. exact Hword. }
  unfold next_class_regex. cbn [Cats].
  apply M_Cat with (mkpos i prev ((n ++ ws ++ w) ++ post)).
  { apply M_Bnd. unfold at_boundary. cbn [before rest]. rewrite Hprev.
    destruct n as [|x n]; [discriminate|].
    cbn [app hd_error is_word_at]. inversion Wn; subst.
    rewrite H1. reflexivity. }
  apply M_Cat with (after i prev (n ++ ws ++ w) post).
  { apply M_Grp. cbn [Alts].
    destruct Which as [ -> | [ -> | -> ] ].
    - apply M_Alt_l. exact A.
    - apply M_Alt_r, M_Alt_l. exact A.
    - apply M_Alt_r, M_Alt_r. exact A. }
  apply M_Bnd. unfold at_boundary, after. cbn [before rest].
  rewrite Hpost, !last_char_app, (last_char_word _ w Hwne Ww). reflexivity.
Qed.

(** The pattern of line 63 finds the phrase wherever it stands. *)
Lemma next_phrase_found (s : text) :
  contains_next_phrase s -> re_search next_class_regex s <> None.
Proof.
  intros (pre & phrase & post & -> & P & Hpre & Hpost).
  unfold re_search.
  assert (H : search_from next_class_regex 0 None (pre ++ phrase ++ post)
              <> None).
  { apply search_from_complete with (q := after (0 + List.length pre)
                                            (last_char None pre) phrase post).
    unfold after at 1. apply matches_next_phrase; assumption. }
  destruct (search_from next_class_regex 0 None (pre ++ phrase ++ post));
    [discriminate|contradiction].
Qed.

(* ================================================================= *)
(** ** The matcher finds only matches *)

Lemma star_sound (f : ascii -> bool) (s : text) :
  forall i prev caps k res,
    star f i prev s caps k = Some res ->
    exists q, matches (Star f) (mkpos i prev s) q /\ k q caps = Some res.
Proof.
  induction s as [|c s IH]; intros i prev caps k res H; cbn [star] in H.
  - exists (mkpos i prev []). split; [apply M_Star_nil|exact H].
  - destruct (f c) eqn:Fc.
    + destruct (star f (S i) (Some c) s caps k) as [r|] eqn:E;
        cbn [orelse] in H.
      * injection H as ->. destruct (IH _ _ _ _ _ E) as (q & M & K).
        exists q. split; [apply M_Star_cons; assumption|exact K].
      * exists (mkpos i prev (c :: s)). split; [apply M_Star_nil|exact H].
    + exists (mkpos i prev (c :: s)). split; [apply M_Star_nil|exact H].
Qed.

Theorem exec_sound (r : regex) :
  forall p caps k res,
    exec r p caps k = Some res ->
    exists q caps', matches r p q /\ k q caps' = Some res.
Proof.
  induction r as [|c|f|r1 IH1 r2 IH2|r1 IH1 r2 IH2|r IH|f|i r IH|];
    intros p caps k res H; cbn [exec] in H.
  - exists p, caps. split; [apply M_Eps|exact H].
  - destruct p as [i prev s]. cbn [rest index] in H.
    destruct s as [|x s]; [discriminate|].
    destruct (Ascii.eqb (lower x) (lower c)) eqn:E; [|discriminate].
    apply Ascii.eqb_eq in E.
    exists (mkpos (S i) (Some x) s), caps. split; [apply M_Chr|]; assumption.
  - destruct p as [i prev s]. cbn [rest index] in H.
    destruct s as [|x s]; [discriminate|].
    destruct (f x) eqn:E; [|discriminate].
    exists (mkpos (S i) (Some x) s), caps. split; [apply M_Cls|]; assumption.
  - destruct (IH1 _ _ _ _ H) as (q1 & c1 & M1 & H1).
    destruct (IH2 _ _ _ _ H1) as (q & c' & M2 & K).
    exists q, c'. split; [apply M_Cat with q1; assumption|exact K].
  - destruct (exec r1 p caps k) as [x|] eqn:E; cbn [orelse] in H.
    + injection H as ->. destruct (IH1 _ _ _ _ E) as (q & c' & M & K).
      exists q, c'. split; [apply M_Alt_l; exact M|exact K].
    + destruct (IH2 _ _ _ _ H) as (q & c' & M & K).
      exists q, c'. split; [apply M_Alt_r; exact M|exact K].
  - destruct (exec r p caps k) as [x|] eqn:E; cbn [orelse] in H.
    + injection H as ->. destruct (IH _ _ _ _ E) as (q & c' & M & K).
      exists q, c'. split; [apply M_Opt_some; exact M|exact K].
    + exists p, caps. split; [apply M_Opt_none|exact H].
  - destruct p as [i prev s]. cbn [rest index before] in H.
    destruct (star_sound _ _ _ _ _ _ _ H) as (q & M & K).
    exists q, caps. split; assumption.
  - destruct (IH _ _ _ _ H) as (q & c' & M & K).
    exists q, ((i, consumed p q) :: c'). split; [apply M_Grp; exact M|exact K].
  - destruct (at_boundary p) eqn:E; [|discriminate].
    exists p, caps. split; [apply M_Bnd; exact E|exact H].
Qed.

Lemma search_from_sound (r : regex) (s : text) :
  forall i prev res,
    search_from r i prev s = Some res ->
    exists pre s' q, s = pre ++ s' /\ matches r (after i prev pre s') q.
Proof.
  induction s as [|c s IH]; intros i prev res H; cbn [search_from] in H.
  - destruct (match_at r (mkpos i prev [])) as [m|] eqn:E; [|discriminate].
    destruct (exec_sound _ _ _ _ _ E) as (q & _ & M & _).
    exists [], [], q. rewrite after_nil. split; [reflexivity|exact M].
  - destruct (match_at r (mkpos i prev (c :: s))) as [m|] eqn:E.
    + destruct (exec_sound _ _ _ _ _ E) as (q & _ & M & _).
      exists [], (c :: s), q. rewrite after_nil. split; [reflexivity|exact M].
    + destruct (IH _ _ _ H) as (pre & s' & q & -> & M).
      exists (c :: pre), s', q. rewrite after_cons.
      split; [reflexivity|exact M].
Qed.

Lemma matches_Lit_inv (w : text) :
  forall i prev s q,
    matches (Lit w) (mkpos i prev s) q ->
    exists t s', s = t ++ s' /\ map lower t = map lower w
                 /\ q = after i prev t s'.
Proof.
  induction w as [|c w IH]; intros i prev s q M.
  - cbn [Lit] in M. inversion M; subst.
    exists [], s. rewrite after_nil. repeat split.
  - destruct w as [|c' w].
    + cbn [Lit] in M. inversion M; subst.
      exists [x], s0. rewrite after_cons, after_nil.
      repeat split. cbn [map]. congruence.
    + change (Lit (c :: c' :: w)) with (Cat (Chr c) (Lit (c' :: w))) in M.
      inversion M as [| | |r1 r2 p0 q1 t0 M1 M2| | | | | | | |]; subst.
      inversion M1; subst.
      destruct (IH _ _ _ _ M2) as (t & s' & -> & E & ->).
      exists (x :: t), s'. rewrite after_cons.
      repeat split. cbn [map] in *. congruence.
Qed.

Lemma matches_Star_inv (f : ascii -> bool) (p q : pos) :
  matches (Star f) p q ->
  exists t s', rest p = t ++ s' /\ Forall (fun c => f c = true) t
               /\ q = after (index p) (before p) t s'.
Proof.
  intros M. remember (Star f) as r eqn:R.
  induction M; try discriminate; injection R as ->.
  - exists [], (rest p). destruct p. rewrite after_nil. repeat split.
    constructor.
  - destruct (IHM eq_refl) as (t & s' & E & F & ->).
    cbn [rest index before] in *. subst s.
    exists (x :: t), s'. rewrite after_cons. repeat split.
    constructor; assumption.
Qed.

Lemma matches_Plus_inv (f : ascii -> bool) (i : nat) (prev : option ascii)
  (s : text) (q : pos) :
  matches (Plus f) (mkpos i prev s) q ->
  exists t s', s = t ++ s' /\ t <> [] /\ Forall (fun c => f c = true) t
               /\ q = after i prev t s'.
Proof.
  unfold Plus. intros M.
  inversion M as [| | |r1 r2 p0 q1 t0 M1 M2| | | | | | | |]; subst.
  inversion M1; subst.
  destruct (matches_Star_inv _ _ _ M2) as (t & s' & E & F & ->).
  cbn [rest index before] in *. subst s0.
  exists (x :: t), s'. rewrite after_cons.
  repeat split; [discriminate|constructor; assumption].
Qed.

Lemma matches_next_word_inv (word : string) (i : nat) (prev : option ascii)
  (s : text) (q : pos) :
  matches (Cats [Word "next"; Plus is_space; Word word]) (mkpos i prev s) q ->
  exists n ws w s',
    s = (n ++ ws ++ w) ++ s'
    /\ same_word "next" n
    /\ ws <> [] /\ Forall (fun c => is_space c = true) ws
    /\ same_word word w
    /\ q = after i prev (n ++ ws ++ w) s'.
Proof.
  cbn [Cats]. intros M.
  inversion M as [| | |r1 r2 p0 q1 t0 M1 M23| | | | | | | |]; subst.
  destruct (matches_Lit_inv _ _ _ _ _ M1) as (n & s1 & -> & En & ->).
  inversion M23 as [| | |r1 r2 p0 q2 t0 M2 M3| | | | | | | |]; subst.
  unfold after in M2 at 1.
  destruct (matches_Plus_inv _ _ _ _ _ M2) as (ws & s2 & -> & Hne & F & ->).
  unfold after in M3 at 1.
  destruct (matches_Lit_inv _ _ _ _ _ M3) as (w & s3 & -> & Ew & ->).
  exists n, ws, w, s3. rewrite <- !app_assoc, !after_app.
  repeat split; assumption.
Qed.

Lemma matches_next_phrase_inv (i : nat) (prev : option ascii) (s : text)
  (q : pos) :
  matches next_class_regex (mkpos i prev s) q ->
  exists phrase post,
    s = phrase ++ post
    /\ next_phrase phrase
    /\ is_word_at prev = false
    /\ is_word_at (hd_error post) = false.
Proof.
  unfold next_class_regex. cbn [Cats Alts]. intros M.
  inversion M as [| | |r1 r2 p0 q1 t0 M1 M23| | | | | | | |]; subst.
  inversion M1 as [| | | | | | | | | | |p0 B1]; subst.
  inversion M23 as [| | |r1 r2 p0 q2 t0 M2 M3| | | | | | | |]; subst.
  inversion M3 as [| | | | | | | | | | |p0 B2]; subst.
  inversion M2 as [| | | | | | | | | |j r p0 q0 MA|]; subst.
  assert (H : exists word n ws w s',
             s = (n ++ ws ++ w) ++ s'
             /\ same_word "next" n
             /\ ws <> [] /\ Forall (fun c => is_space c = true) ws
             /\ same_word word w
             /\ forallb is_letter (map lower (str word)) = true
             /\ List.length (str word) <> 0%nat
             /\ (same_word "class" w \/ same_word "lecture" w
                 \/ same_word "session" w)
             /\ q = after i prev (n ++ ws ++ w) s').
  { inversion MA as [| | | |r1 r2 p0 q0 MA1|r1 r2 p0 q0 MA23| | | | | |];
      subst.
    - destruct (matches_next_word_inv _ _ _ _ _ MA1)
        as (n & ws & w & s' & E & Hn & Hne & F & Hw & Hq).
      exists "class"%string, n, ws, w, s'.
      repeat split; try assumption; try discriminate. left. exact Hw.
    - inversion MA23 as [| | | |r1 r2 p0 q0 MA2|r1 r2 p0 q0 MA3| | | | | |];
        subst.
      + destruct (matches_next_word_inv _ _ _ _ _ MA2)
          as (n & ws & w & s' & E & Hn & Hne & F & Hw & Hq).
        exists "lecture"%string, n, ws, w, s'.
        repeat split; try assumption; try discriminate.
        right. left. exact Hw.
      + destruct (matches_next_word_inv _ _ _ _ _ MA3)
          as (n & ws & w & s' & E & Hn & Hne & F & Hw & Hq).
        exists "session"%string, n, ws, w, s'.
        repeat split; try assumption; try discriminate.
        right. right. exact Hw. }
  destruct H as (word & n & ws & w & s' & -> & Hn & Hne & F & Hw & Lw & Nw
                 & Which & ->).
  destruct (same_word_chars "next" n eq_refl Hn) as [Ln Wn].
  destruct (same_word_chars word w Lw Hw) as [Lenw Ww].
  assert (Hwne : w <> []) by (intros ->; cbn in Lenw; congruence).
  exists (n ++ ws ++ w), s'. split; [reflexivity|]. split.
  { exists n, ws, w. repeat split; assumption. }
  unfold at_boundary in B1, B2. cbn [before rest] in B1.
  unfold after in B2. cbn [before rest] in B2.
  split.
  - destruct n as [|x n]; [discriminate|].
    cbn [app hd_error is_word_at] in B1. inversion Wn; subst.
    rewrite H1 in B1. destruct (is_word_at prev); [discriminate|reflexivity].
  - rewrite !last_char_app, (last_char_word _ w Hwne Ww) in B2.
    destruct (is_word_at (hd_error s')); [discriminate|reflexivity].
Qed.

(** The pattern of line 63 matches exactly the texts that contain the
    phrase. *)
Lemma next_phrase_iff (s : text) :
  re_search next_class_regex s <> None <-> contains_next_phrase s.
Proof.
  split; [|apply next_phrase_found].
  unfold re_search. intros H.
  destruct (search_from next_class_regex 0 None s) as [res|] eqn:E;
    [|contradiction].
  destruct (search_from_sound _ _ _ _ _ E) as (pre & s' & q & -> & M).
  unfold after in M at 1.
  destruct (matches_next_phrase_inv _ _ _ _ M)
    as (phrase & post & -> & P & B1 & B2).
  exists pre, phrase, post. repeat split; assumption.
Qed.


(* ================================================================= *)
(** ** [find_date_in_text] *)

Lemma find_date_in_text_nonempty (MY_SCHEDULE : schedule) (now : clock)
  (s default_date_str course_code : text) (fb : datetime) :
  s <> [] -> valid_posted default_date_str fb ->
  find_date_in_text MY_SCHEDULE now s default_date_str course_code
  = match re_search next_class_regex s with
    | Some _ =>
        match get_next_class_date MY_SCHEDULE course_code fb with
        | Raise e => ([], Raise e)
        | Ok (Some next_class_date) =>
            ([Found_next_class course_code next_class_date],
             Ok next_class_date)
        | Ok None => ([], explicit_date now s fb)
        end
    | None => ([], explicit_date now s fb)
    end.
Proof.
  intros Hne V. unfold find_date_in_text.
  destruct s; [contradiction|].
  rewrite (strptime_posted _ _ V). reflexivity.
Qed.




Lemma valid_posted_split (default_date_str : text) (fb : datetime) :
  valid_posted default_date_str fb ->
  default_date_str = isoformat fb ++ skipn 10 default_date_str.
Proof.
  intros [_ E]. rewrite <- E. symmetry. apply firstn_skipn.
Qed.

(** C1, at the failing input: an empty text with a full timestamp as
    posted value raises [ValueError] ("unconverted data remains"),
    whatever the schedule, the clock and the course. *)
Theorem empty_text_with_timestamp_raises (MY_SCHEDULE : schedule)
  (now : clock) (course_code : text) :
  find_date_in_text MY_SCHEDULE now (str "")
    (str "2024-01-03T10:00:00Z") course_code
  = ([], Raise ValueError).
Proof. reflexivity. Qed.

(** Two more ways past the [try]: the date computation of the
    "next class" rule is outside it. *)
Example next_class_with_no_weekdays_raises (now : clock) :
  find_date_in_text [(str "CS 363", [])] now (str "See you next class")
    (str "2024-01-03T10:00:00Z") (str "CS 363-001 Fall 2024")
  = ([], Raise IndexError).
Proof. vm_compute. reflexivity. Qed.

Example next_class_after_max_date_raises (now : clock) :
  find_date_in_text [(str "CS 363", [1; 3])] now (str "See you next class")
    (str "9999-12-31T10:00:00Z") (str "CS 363-001 Fall 2024")
  = ([], Raise OverflowError).
Proof. vm_compute. reflexivity. Qed.

(** C2, what the code does on an empty text: it parses the whole posted
    value, so the date comes back only when the posted value is the
    bare 10-character date; with anything after it the call raises
    [ValueError]. *)
Theorem empty_text_parses_whole_posted_value (MY_SCHEDULE : schedule)
  (now : clock) (default_date_str course_code : text) (fb : datetime) :
  valid_posted default_date_str fb ->
  find_date_in_text MY_SCHEDULE now [] default_date_str course_code
  = ([], if (List.length default_date_str <=? 10)%nat
         then Ok fb else Raise ValueError).
Proof.
  intros V. pose proof (valid_posted_split _ _ V) as E.
  destruct V as [V F]. cbn [find_date_in_text].
  assert (L : List.length (firstn 10 default_date_str) = 10%nat)
    by (rewrite F; reflexivity).
  rewrite length_firstn in L.
  destruct (skipn 10 default_date_str) as [|c rest] eqn:S.
  - rewrite app_nil_r in E. rewrite E at 1.
    rewrite (strptime_isoformat fb V).
    replace (List.length default_date_str) with 10%nat
      by (rewrite E; reflexivity).
    reflexivity.
  - rewrite E at 1. rewrite (strptime_isoformat_extra fb c rest V).
    assert (L' : (10 < List.length default_date_str)%nat).
    { rewrite E, length_app. cbn [List.length isoformat]. lia. }
    apply Nat.leb_gt in L'. rewrite L'. reflexivity.
Qed.

Lemma empty_text_parses_whole_posted_value_witness :
  find_date_in_text [] (mkclock 2026 11) [] (str "2024-01-03T10:00:00Z") []
  = ([], Raise ValueError)
  /\ find_date_in_text [] (mkclock 2026 11) [] (str "2024-01-03") []
     = ([], Ok (mkdate 2024 1 3)).
Proof.
  split.
  - apply (empty_text_parses_whole_posted_value [] (mkclock 2026 11)
             (str "2024-01-03T10:00:00Z") [] (mkdate 2024 1 3)).
    split; reflexivity.
  - apply (empty_text_parses_whole_posted_value [] (mkclock 2026 11)
             (str "2024-01-03") [] (mkdate 2024 1 3)).
    split; reflexivity.
Defined.

(* ================================================================= *)
(** ** [load_schedule] *)

(** C3, counterexample: [MY_TIMETABLE='[1]'] is valid JSON, so
    [json.loads] returns the list [[1]] and [load_schedule] returns it
    as the schedule, with no warning. *)
Lemma malformed_config_claim_fails_on_json_list :
  ~ malformed_config_claim (Decoded (JArray [JInt 1])).
Proof.
  intros H. unfold malformed_config_claim in H.
  assert (E : load_schedule (Decoded (JArray [JInt 1]))
              = ([Warning_could_not_parse], Ok (JObject []))).
  { apply H. intros v [= <-]. reflexivity. }
  discriminate E.
Qed.

(** The claim fails as well where [json.loads] raises an exception that
    is not a [JSONDecodeError]: [load_schedule] raises it in turn. *)
Example malformed_config_claim_fails_on_other_exception (e : exn) :
  ~ malformed_config_claim (Raises e).
Proof.
  intros H. unfold malformed_config_claim in H.
  assert (E : load_schedule (Raises e)
              = ([Warning_could_not_parse], Ok (JObject []))).
  { apply H. intros v [=]. }
  discriminate E.
Qed.

(** A number with a fraction is valid JSON and is kept as decoded; it
    is not a list of integers. *)
Example float_weekday_is_kept :
  let half := JFloat (SpecFloat.S754_finite false 1 (-1)) in
  let config := JObject [(str "CS 363", JArray [half])] in
  load_schedule (Decoded config) = ([], Ok config)
  /\ as_schedule config = None.
Proof. split; reflexivity. Qed.

(** C3 (amended): what [load_schedule] constructs, for every outcome of
    [json.loads] on the configuration text.
    - The text is not valid JSON ([JSONDecodeError]): the empty mapping
      and one warning, and nothing is raised.  This is the only case
      with a warning.
    - [json.loads] returns a value: that value, whatever its shape,
      without a warning.
    - [json.loads] raises another exception: [load_schedule] raises it,
      without a warning.  This is the only case where construction
      fails.
    The index constructed with the warning is the empty schedule, and
    on the empty schedule [get_next_class_date] has no answer for any
    course identifier and reference date. *)
Theorem load_schedule_recovery (decoded : json_loads_outcome)
  (out : list event) (index : result json) :
  load_schedule decoded = (out, index) ->
  (decoded = JSONDecodeError <-> out = [Warning_could_not_parse])
  /\ (decoded <> JSONDecodeError <-> out = [])
  /\ (decoded = JSONDecodeError -> index = Ok (JObject []))
  /\ (forall v, decoded = Decoded v <-> index = Ok v /\ out = [])
  /\ (forall e, decoded = Raises e <-> index = Raise e)
  /\ (out = [Warning_could_not_parse] ->
      exists v, index = Ok v /\ as_schedule v = Some [])
  /\ (forall course_code ref,
        get_next_class_date [] course_code ref = Ok None).
Proof.
  intros H.
  destruct decoded as [v| |e]; cbn [load_schedule] in H;
    injection H as <- <-.
  - split; [split; discriminate|].
    split; [split; [reflexivity|discriminate]|].
    split; [discriminate|].
    split; [intros w; split; [intros [= ->]; split; reflexivity
                             |intros [[= ->] _]; reflexivity]|].
    split; [intros e; split; discriminate|].
    split; [discriminate|reflexivity].
  - split; [split; reflexivity|].
    split; [split; [intros N; contradiction N; reflexivity|discriminate]|].
    split; [reflexivity|].
    split; [intros w; split; [discriminate|intros [_ [=]]]|].
    split; [intros e; split; discriminate|].
    split; [|reflexivity].
    intros _. exists (JObject []). split; reflexivity.
  - split; [split; discriminate|].
    split; [split; [reflexivity|discriminate]|].
    split; [discriminate|].
    split; [intros w; split; [discriminate|intros [[=] _]]|].
    split; [intros e'; split; intros [= ->]; reflexivity|].
    split; [discriminate|reflexivity].
Qed.

Lemma load_schedule_recovery_witness :
  (exists v, Ok (JObject []) = Ok v /\ as_schedule v = Some [])
  /\ (forall e, Raises RecursionError = Raises e
                <-> @Raise json RecursionError = Raise e).
Proof.
  split.
  - destruct (load_schedule_recovery JSONDecodeError
                [Warning_could_not_parse] (Ok (JObject [])) eq_refl)
      as (_ & _ & _ & _ & _ & W & _).
    exact (W eq_refl).
  - destruct (load_schedule_recovery (Raises RecursionError) []
                (Raise RecursionError) eq_refl)
      as (_ & _ & _ & _ & W & _).
    exact W.
Defined.

(* ================================================================= *)
(** ** Rule priority *)




(* ================================================================= *)
(** ** The explicit-date rule *)

Lemma find_date_in_text_explicit (MY_SCHEDULE : schedule) (now : clock)
  (s default_date_str course_code : text) (fb : datetime) :
  re_search next_class_regex s = None ->
  s <> [] -> valid_posted default_date_str fb ->
  find_date_in_text MY_SCHEDULE now s default_date_str course_code
  = ([], explicit_date now s fb).
Proof.
  intros N Hne V.
  rewrite (find_date_in_text_nonempty _ _ _ _ _ fb Hne V), N. reflexivity.
Qed.

Lemma no_next_phrase_in_examples :
  re_search next_class_regex (str "Due 3rd Oct, 2024") = None
  /\ re_search next_class_regex (str "Due Oct 3rd 2024") = None
  /\ re_search next_class_regex (str "Meet on 2 Mar") = None
  /\ re_search next_class_regex (str "Meet on 2 Sep") = None.
Proof. vm_compute. repeat split. Qed.

(** C7: with a valid posted value, ["Due 3rd Oct, 2024"] (day before
    month) and ["Due Oct 3rd 2024"] (month before day) both resolve to
    2024-10-03, whatever the posted value, the course, the schedule and
    the clock. *)
Theorem explicit_year_round_trip (MY_SCHEDULE : schedule) (now : clock)
  (default_date_str course_code : text) (fb : datetime) :
  valid_posted default_date_str fb ->
  find_date_in_text MY_SCHEDULE now (str "Due 3rd Oct, 2024")
    default_date_str course_code = ([], Ok (mkdate 2024 10 3))
  /\ find_date_in_text MY_SCHEDULE now (str "Due Oct 3rd 2024")
       default_date_str course_code = ([], Ok (mkdate 2024 10 3)).
Proof.
  intros V. destruct no_next_phrase_in_examples as (N1 & N2 & _).
  split.
  - rewrite (find_date_in_text_explicit _ _ _ _ _ fb N1) by
      (discriminate || exact V).
    vm_compute. reflexivity.
  - rewrite (find_date_in_text_explicit _ _ _ _ _ fb N2) by
      (discriminate || exact V).
    vm_compute. reflexivity.
Qed.

Lemma explicit_year_round_trip_witness :
  find_date_in_text [(str "CS 363", [1; 3])] (mkclock 2026 11)
    (str "Due 3rd Oct, 2024") (str "2024-01-03T10:00:00Z")
    (str "CS 363-001 Fall 2024") = ([], Ok (mkdate 2024 10 3))
  /\ find_date_in_text [(str "CS 363", [1; 3])] (mkclock 2026 11)
       (str "Due Oct 3rd 2024") (str "2024-01-03T10:00:00Z")
       (str "CS 363-001 Fall 2024") = ([], Ok (mkdate 2024 10 3)).
Proof.
  apply (explicit_year_round_trip [(str "CS 363", [1; 3])] (mkclock 2026 11)
           (str "2024-01-03T10:00:00Z") (str "CS 363-001 Fall 2024")
           (mkdate 2024 1 3)).
  split; reflexivity.
Defined.

Lemma year_of_no_year (now : clock) (month : Z) :
  exists year,
    year_of now None month = Ok year
    /\ (far_earlier_month now month -> year = now_year now + 1)
    /\ (~ far_earlier_month now month -> year = now_year now).
Proof.
  unfold year_of, far_earlier_month.
  destruct ((month <? now_month now) && (now_month now - month >? 6)) eqn:E.
  - exists (now_year now + 1). bool_to_prop. repeat split; try reflexivity.
    intros N. destruct N. lia.
  - exists (now_year now). split; [reflexivity|]. split; [|reflexivity].
    intros [A B]. apply andb_false_iff in E as [E|E]; bool_to_prop; lia.
Qed.

(** C6: when a pattern matched a day and a month and no year, the year
    passed to [datetime] is the current year plus one exactly when the
    month is before the current month by more than 6, and the current
    year otherwise.  In November, ["Meet on 2 Mar"] gets the next year
    and ["Meet on 2 Sep"] the current one, and (for years [datetime]
    has) these are the dates returned. *)
Theorem year_inference (now : clock) :
  (forall s day month_str month,
     matched_fields (re_search pattern1 s) (re_search pattern2 s)
     = Some (Ok (day, month_str, None)) ->
     (let* key := month_key month_str in months key) = Ok month ->
     exists year,
       date_arguments now s = Some (Ok (year, month, day))
       /\ (far_earlier_month now month -> year = now_year now + 1)
       /\ (~ far_earlier_month now month -> year = now_year now))
  /\
  (now_month now = 11 ->
   date_arguments now (str "Meet on 2 Mar")
   = Some (Ok (now_year now + 1, 3, 2))
   /\ date_arguments now (str "Meet on 2 Sep")
      = Some (Ok (now_year now, 9, 2))
   /\ forall MY_SCHEDULE default_date_str course_code fb,
        valid_posted default_date_str fb ->
        (1 <= now_year now + 1 <= 9999 ->
         find_date_in_text MY_SCHEDULE now (str "Meet on 2 Mar")
           default_date_str course_code
         = ([], Ok (mkdate (now_year now + 1) 3 2)))
        /\ (1 <= now_year now <= 9999 ->
            find_date_in_text MY_SCHEDULE now (str "Meet on 2 Sep")
              default_date_str course_code
            = ([], Ok (mkdate (now_year now) 9 2)))).
Proof.
  split.
  - intros s day month_str month F K.
    destruct (year_of_no_year now month) as (year & Y & A & B).
    exists year. split; [|split; assumption].
    unfold date_arguments. cbv zeta. rewrite F. cbn [bind].
    unfold date_fields.
    destruct (month_key month_str) as [key|]; [|discriminate].
    cbn [bind] in K |- *. rewrite K. cbn [bind]. rewrite Y. reflexivity.
  - destruct now as [cy cm]. cbn [now_month now_year]. intros ->.
    assert (Mar : date_arguments (mkclock cy 11) (str "Meet on 2 Mar")
                  = Some (Ok (cy + 1, 3, 2))) by (vm_compute; reflexivity).
    assert (Sep : date_arguments (mkclock cy 11) (str "Meet on 2 Sep")
                  = Some (Ok (cy, 9, 2))) by (vm_compute; reflexivity).
    split; [exact Mar|]. split; [exact Sep|].
    intros MY_SCHEDULE default_date_str course_code fb V.
    destruct no_next_phrase_in_examples as (_ & _ & N3 & N4).
    split; intros Hy.
    + rewrite (find_date_in_text_explicit _ _ _ _ _ fb N3) by
        (discriminate || exact V).
      unfold explicit_date. rewrite Mar. cbn [bind]. unfold new_datetime.
      rewrite valid_ymd_intro; [reflexivity|lia|lia|].
      unfold days_in_month. cbn. lia.
    + rewrite (find_date_in_text_explicit _ _ _ _ _ fb N4) by
        (discriminate || exact V).
      unfold explicit_date. rewrite Sep. cbn [bind]. unfold new_datetime.
      rewrite valid_ymd_intro; [reflexivity|lia|lia|].
      unfold days_in_month. cbn. lia.
Qed.

Lemma year_inference_witness :
  (exists year,
     date_arguments (mkclock 2026 11) (str "Meet on 2 Mar")
     = Some (Ok (year, 3, 2))
     /\ (far_earlier_month (mkclock 2026 11) 3 -> year = 2026 + 1)
     /\ (~ far_earlier_month (mkclock 2026 11) 3 -> year = 2026))
  /\ find_date_in_text [] (mkclock 2026 11) (str "Meet on 2 Mar")
       (str "2026-11-03T09:30:00Z") (str "CS 363")
     = ([], Ok (mkdate 2027 3 2))
  /\ find_date_in_text [] (mkclock 2026 11) (str "Meet on 2 Sep")
       (str "2026-11-03T09:30:00Z") (str "CS 363")
     = ([], Ok (mkdate 2026 9 2)).
Proof.
  destruct (year_inference (mkclock 2026 11)) as [G E].
  split.
  - apply (G (str "Meet on 2 Mar") 2 (Some (str "Mar")) 3).
    + vm_compute. reflexivity.
    + reflexivity.
  - destruct (E eq_refl) as (_ & _ & R).
    destruct (R [] (str "2026-11-03T09:30:00Z") (str "CS 363")
                (mkdate 2026 11 3) (conj eq_refl eq_refl)) as [R1 R2].
    split; [apply R1|apply R2]; cbn; lia.
Defined.

(** C8, counterexample: the text has 31 April and also the
    "next class" phrase; the schedule answers, so the result is the
    next class day, not the posted date. *)
Lemma invalid_date_fallback_claim_fails_after_next_class :
  ~ invalid_date_fallback_claim [(str "CS 363", [1; 3])] (mkclock 2026 11)
      (str "Next class replaces the one of 31 Apr 2024")
      (str "2024-01-03T10:00:00Z") (str "CS 363-001 Fall 2024").
Proof.
  intros H.
  specialize (H (mkdate 2024 1 3) 2024 4 31 (conj eq_refl eq_refl)).
  assert (E : find_date_in_text [(str "CS 363", [1; 3])] (mkclock 2026 11)
                (str "Next class replaces the one of 31 Apr 2024")
                (str "2024-01-03T10:00:00Z") (str "CS 363-001 Fall 2024")
              = ([], Ok (mkdate 2024 1 3))).
  { apply H; vm_compute; reflexivity. }
  vm_compute in E. discriminate E.
Qed.

(** C8 (amended): when the "next class" rule has not produced a date
    (the text does not contain the phrase, or [get_next_class_date] has
    no answer) and the fields matched by the explicit-date rule do not
    form a date, the result is the fallback date and nothing is
    raised. *)
Theorem invalid_date_fallback (MY_SCHEDULE : schedule) (now : clock)
  (s default_date_str course_code : text) (fb : datetime) (y m d : Z) :
  valid_posted default_date_str fb ->
  ~ contains_next_phrase s
  \/ get_next_class_date MY_SCHEDULE course_code fb = Ok None ->
  date_arguments now s = Some (Ok (y, m, d)) ->
  valid_ymd y m d = false ->
  find_date_in_text MY_SCHEDULE now s default_date_str course_code
  = ([], Ok fb).
Proof.
  intros V N A I.
  assert (Hne : s <> []).
  { intros ->. vm_compute in A. discriminate A. }
  assert (E : explicit_date now s fb = Ok fb).
  { unfold explicit_date. rewrite A. cbn [bind]. unfold new_datetime.
    rewrite I. reflexivity. }
  rewrite (find_date_in_text_nonempty _ _ _ _ _ fb Hne V).
  destruct (re_search next_class_regex s) as [m0|] eqn:R.
  - destruct N as [N|N].
    + exfalso. apply N, next_phrase_iff. rewrite R. discriminate.
    + rewrite N, E. reflexivity.
  - rewrite E. reflexivity.
Qed.

Lemma invalid_date_fallback_witness :
  find_date_in_text [(str "CS 363", [1; 3])] (mkclock 2026 11)
    (str "Exam moved to 31 Apr") (str "2024-01-03T10:00:00Z")
    (str "CS 363-001 Fall 2024")
  = ([], Ok (mkdate 2024 1 3)).
Proof.
  apply (invalid_date_fallback [(str "CS 363", [1; 3])] (mkclock 2026 11)
           (str "Exam moved to 31 Apr") (str "2024-01-03T10:00:00Z")
           (str "CS 363-001 Fall 2024") (mkdate 2024 1 3) 2027 4 31).
  - split; reflexivity.
  - left. intros C. apply next_phrase_iff in C. apply C.
    vm_compute. reflexivity.
  - vm_compute. reflexivity.
  - reflexivity.
Defined.

(* ================================================================= *)
(** ** More on [get_next_class_date] *)

Lemma least_such_unique (P : Z -> Prop) (l : list Z) (a b : Z) :
  least_such P l a -> least_such P l b -> a = b.
Proof.
  intros (Ia & Pa & La) (Ib & Pb & Lb).
  pose proof (La b Ib Pb). pose proof (Lb a Ia Pa). lia.
Qed.

Lemma offset_rule_unique (days : list Z) (idx o1 o2 : Z) :
  offset_rule days idx o1 -> offset_rule days idx o2 -> o1 = o2.
Proof.
  intros [(d1 & L1 & ->)|(A1 & d1 & L1 & ->)]
         [(d2 & L2 & ->)|(A2 & d2 & L2 & ->)].
  - rewrite (least_such_unique _ _ _ _ L1 L2). reflexivity.
  - destruct L1 as (I & G & _). pose proof (A2 d1 I). lia.
  - destruct L2 as (I & G & _). pose proof (A1 d2 I). lia.
  - rewrite (least_such_unique _ _ _ _ L1 L2). reflexivity.
Qed.

Lemma least_such_same (P : Z -> Prop) (days days' : list Z) (d : Z) :
  same_weekdays days days' -> least_such P days d -> least_such P days' d.
Proof.
  intros S (I & Pd & L). split; [apply S; exact I|]. split; [exact Pd|].
  intros x Hx. apply L, S. exact Hx.
Qed.

Lemma offset_rule_same (days days' : list Z) (idx o : Z) :
  same_weekdays days days' -> offset_rule days idx o ->
  offset_rule days' idx o.
Proof.
  intros S [(d & L & ->)|(A & d & L & ->)].
  - left. exists d. split; [|reflexivity].
    apply (least_such_same _ days); assumption.
  - right. split.
    + intros x Hx. apply A, S. exact Hx.
    + exists d. split; [|reflexivity].
      apply (least_such_same _ days); assumption.
Qed.

Lemma next_class_from_same (days days' : list Z) (ref : datetime) :
  same_weekdays days days' ->
  next_class_from days ref = next_class_from days' ref.
Proof.
  intros S. destruct days as [|a days].
  - destruct days' as [|b days']; [reflexivity|].
    destruct (proj2 (S b) (or_introl eq_refl)).
  - assert (N : a :: days <> []) by discriminate.
    assert (N' : days' <> []).
    { intros ->. destruct (proj1 (S a) (or_introl eq_refl)). }
    destruct (days_ahead_rule (a :: days) (weekday ref) N) as (o & E & R).
    destruct (days_ahead_rule days' (weekday ref) N') as (o' & E' & R').
    apply (offset_rule_same _ _ _ _ S) in R.
    rewrite (offset_rule_unique _ _ _ _ R R') in E.
    unfold next_class_from. cbv zeta. rewrite E, E'. reflexivity.
Qed.

(** X1: the answer depends on the matched course's weekdays as a set:
    two schedules that give the matched course the same weekdays, in
    any order and with any repeats, give the same answer (the list is
    sorted on line 40 before it is used). *)
Theorem weekday_list_order_irrelevant (MY_SCHEDULE MY_SCHEDULE' : schedule)
  (course_code : text) (ref : datetime) (days days' : list Z) :
  matched_course MY_SCHEDULE course_code days ->
  matched_course MY_SCHEDULE' course_code days' ->
  same_weekdays days days' ->
  get_next_class_date MY_SCHEDULE course_code ref
  = get_next_class_date MY_SCHEDULE' course_code ref.
Proof.
  intros M M' S.
  rewrite (get_next_class_date_matched _ _ _ _ M),
    (get_next_class_date_matched _ _ _ _ M').
  apply next_class_from_same. exact S.
Qed.

Lemma weekday_list_order_irrelevant_witness :
  get_next_class_date [(str "CS 363", [1; 3])] (str "CS 363-001 Fall 2024")
    (mkdate 2024 1 5)
  = get_next_class_date [(str "CS 363", [3; 1; 3])]
      (str "CS 363-001 Fall 2024") (mkdate 2024 1 5).
Proof.
  apply (weekday_list_order_irrelevant _ _ _ _ [1; 3] [3; 1; 3]).
  - exact matched_course_example.
  - exists (str "CS 363").
    split; [reflexivity|split; [discriminate|reflexivity]].
  - intros x. cbn. tauto.
Defined.

Lemma next_class_from_Ok (days : list Z) (ref r : datetime) :
  next_class_from days ref = Ok (Some r) ->
  days <> []
  /\ exists offset,
       offset_rule days (weekday ref) offset
       /\ plus_days ref offset = Ok r.
Proof.
  intros H. destruct days as [|a days]; [discriminate H|].
  split; [discriminate|].
  destruct (days_ahead_rule (a :: days) (weekday ref) ltac:(discriminate))
    as (o & E & R).
  exists o. split; [exact R|].
  unfold next_class_from in H. cbv zeta in H. rewrite E in H.
  cbn [bind] in H. destruct (plus_days ref o); [|discriminate H].
  cbn [bind] in H. congruence.
Qed.

(** X2: for a matched course whose stored weekday values are integers
    (as the values of a [schedule] are; a number with a fraction, which
    a JSON configuration can also hold, is not covered) and none of
    them is negative, the answer is strictly after the reference date,
    even when the values are not weekday indices (7 or more). *)
Theorem nonnegative_weekdays_look_forward (MY_SCHEDULE : schedule)
  (course_code : text) (ref r : datetime) (days : list Z) :
  matched_course MY_SCHEDULE course_code days ->
  Forall (fun d => 0 <= d) days ->
  get_next_class_date MY_SCHEDULE course_code ref = Ok (Some r) ->
  toordinal ref < toordinal r.
Proof.
  intros M W H. rewrite (get_next_class_date_matched _ _ _ _ M) in H.
  destruct (next_class_from_Ok _ _ _ H) as (_ & o & R & P).
  apply plus_days_Ok in P as [_ P]. rewrite P.
  pose proof (weekday_range ref) as I. rewrite Forall_forall in W.
  destruct R as [(d & (_ & G & _) & ->)|(_ & d0 & (I0 & _ & _) & ->)].
  - lia.
  - pose proof (W d0 I0). lia.
Qed.

Lemma nonnegative_weekdays_look_forward_witness :
  toordinal (mkdate 2024 1 3) < toordinal (mkdate 2024 1 10).
Proof.
  apply (nonnegative_weekdays_look_forward [(str "CS 363", [9])]
           (str "CS 363") (mkdate 2024 1 3) (mkdate 2024 1 10) [9]).
  - exists (str "CS 363").
    split; [reflexivity|split; [discriminate|reflexivity]].
  - repeat constructor. lia.
  - vm_compute. reflexivity.
Defined.

(** With a negative stored value the answer can be the reference date
    itself: [-1], asked on a Sunday. *)
Example negative_weekday_returns_reference_date :
  get_next_class_date [(str "CS 363", [-1])] (str "CS 363") (mkdate 2024 1 7)
  = Ok (Some (mkdate 2024 1 7)).
Proof. vm_compute. reflexivity. Qed.

(** X3: a matched course whose weekday list is empty makes
    [get_next_class_date] raise [IndexError] ([class_days[0]] on line
    51), for every reference date. *)
Theorem empty_weekday_list_raises (MY_SCHEDULE : schedule)
  (course_code : text) (ref : datetime) :
  matched_course MY_SCHEDULE course_code [] ->
  get_next_class_date MY_SCHEDULE course_code ref = Raise IndexError.
Proof.
  intros M. rewrite (get_next_class_date_matched _ _ _ _ M). reflexivity.
Qed.

Lemma empty_weekday_list_raises_witness :
  get_next_class_date [(str "MATH 205", [0; 2]); (str "CS 363", [])]
    (str "CS 363-001 Fall 2024") (mkdate 2024 1 3) = Raise IndexError.
Proof.
  apply empty_weekday_list_raises.
  exists (str "CS 363").
  split; [reflexivity|split; [discriminate|reflexivity]].
Defined.



(* ================================================================= *)
(** ** More on [find_date_in_text] *)





(** X6: with an empty schedule (an absent or unparseable
    [MY_TIMETABLE]) the "next class" phrase has no effect: every text
    that is not empty is resolved by the explicit-date rule, and nothing
    is logged. *)
Theorem empty_schedule_ignores_next_class (now : clock)
  (s default_date_str course_code : text) (fb : datetime) :
  s <> [] ->
  valid_posted default_date_str fb ->
  find_date_in_text [] now s default_date_str course_code
  = ([], explicit_date now s fb).
Proof.
  intros Hne V. rewrite (find_date_in_text_nonempty _ _ _ _ _ fb Hne V).
  destruct (re_search next_class_regex s); reflexivity.
Qed.

Lemma empty_schedule_ignores_next_class_witness :
  find_date_in_text [] (mkclock 2026 11) (str "Next class: 3rd Oct, 2024")
    (str "2024-01-03T10:00:00Z") (str "CS 363-001 Fall 2024")
  = ([], Ok (mkdate 2024 10 3)).
Proof.
  rewrite (empty_schedule_ignores_next_class _ _ _ _ (mkdate 2024 1 3)).
  - vm_compute. reflexivity.
  - discriminate.
  - split; reflexivity.
Defined.

(* ================================================================= *)
(** ** What the two date patterns need *)















(* ================================================================= *)
(** ** The case of the text does not matter *)

Lemma lower_facts (c : ascii) :
  lower (lower c) = lower c
  /\ is_digit (lower c) = is_digit c
  /\ is_space (lower c) = is_space c
  /\ is_letter (lower c) = is_letter c
  /\ is_word (lower c) = is_word c
  /\ (is_digit c = true -> lower c = c).
Proof.
  destruct c as [[] [] [] [] [] [] [] []]; vm_compute; repeat split;
    congruence.
Qed.

Lemma case_blind_Lit (w : text) : case_blind (Lit w).
Proof.
  induction w as [|c w IH]; cbn; [exact I|].
  destruct w; [exact I|]. split; [exact I|exact IH].
Qed.

Lemma case_blind_patterns :
  case_blind next_class_regex /\ case_blind pattern1 /\ case_blind pattern2.
Proof.
  unfold next_class_regex, pattern1, pattern2, month_names, ordinal_suffix,
    one_or_two_digits, four_digits, Plus, Word.
  cbn [Cats Alts case_blind].
  repeat split; try apply case_blind_Lit; intros c; apply lower_facts.
Qed.

Lemma option_map_orelse {A B : Type} (g : A -> B) (a b : option A) :
  option_map g (orelse a b) = orelse (option_map g a) (option_map g b).
Proof. destruct a; reflexivity. Qed.

Lemma star_lower (f : ascii -> bool) (s : text) :
  (forall c, f (lower c) = f c) ->
  forall i prev caps k k',
    (forall q c, k' (lower_pos q) (lower_captures c)
                 = option_map lower_rmatch (k q c)) ->
    star f i (option_map lower prev) (map lower s) (lower_captures caps) k'
    = option_map lower_rmatch (star f i prev s caps k).
Proof.
  intros Hf. induction s as [|x s IH]; intros i prev caps k k' R;
    cbn [map star].
  - apply (R (mkpos i prev [])).
  - rewrite Hf. destruct (f x).
    + rewrite option_map_orelse.
      rewrite <- (IH (S i) (Some x) caps k k' R).
      rewrite <- (R (mkpos i prev (x :: s))). reflexivity.
    + apply (R (mkpos i prev (x :: s))).
Qed.

Lemma at_boundary_lower (p : pos) : at_boundary (lower_pos p) = at_boundary p.
Proof.
  unfold at_boundary, lower_pos. cbn [before rest].
  destruct p as [i [b|] [|x s]]; cbn;
    rewrite ?(proj1 (proj2 (proj2 (proj2 (proj2 (lower_facts _))))));
    reflexivity.
Qed.

Lemma consumed_lower (p q : pos) :
  consumed (lower_pos p) (lower_pos q) = map lower (consumed p q).
Proof. unfold consumed, lower_pos. cbn [index rest]. apply firstn_map. Qed.

Theorem exec_lower (r : regex) :
  case_blind r ->
  forall p caps k k',
    (forall q c, k' (lower_pos q) (lower_captures c)
                 = option_map lower_rmatch (k q c)) ->
    exec r (lower_pos p) (lower_captures caps) k'
    = option_map lower_rmatch (exec r p caps k).
Proof.
  induction r as [|c|f|r1 IH1 r2 IH2|r1 IH1 r2 IH2|r IH|f|i r IH|];
    intros B p caps k k' R; cbn [exec case_blind] in *.
  - apply R.
  - destruct p as [i prev [|x s]]; cbn [lower_pos rest index map];
      [reflexivity|].
    rewrite (proj1 (lower_facts x)).
    destruct (Ascii.eqb (lower x) (lower c)); [|reflexivity].
    apply (R (mkpos (S i) (Some x) s)).
  - destruct p as [i prev [|x s]]; cbn [lower_pos rest index map];
      [reflexivity|].
    rewrite B. destruct (f x); [|reflexivity].
    apply (R (mkpos (S i) (Some x) s)).
  - destruct B as [B1 B2]. apply (IH1 B1).
    intros q c. apply (IH2 B2). exact R.
  - destruct B as [B1 B2]. rewrite option_map_orelse.
    rewrite (IH1 B1 p caps k k' R), (IH2 B2 p caps k k' R). reflexivity.
  - rewrite option_map_orelse, (IH B p caps k k' R), (R p caps).
    reflexivity.
  - destruct p as [i prev s]. cbn [lower_pos index before rest].
    apply star_lower; assumption.
  - apply (IH B). intros q c. rewrite consumed_lower.
    apply (R q ((i, consumed p q) :: c)).
  - rewrite at_boundary_lower. destruct (at_boundary p); [|reflexivity].
    apply R.
Qed.

Lemma search_from_lower (r : regex) (s : text) :
  case_blind r ->
  forall i prev,
    search_from r i (option_map lower prev) (map lower s)
    = option_map lower_rmatch (search_from r i prev s).
Proof.
  intros B. induction s as [|x s IH]; intros i prev;
    cbn [map search_from]; unfold match_at.
  - change (exec r (mkpos i (option_map lower prev) []) [] accept)
      with (exec r (lower_pos (mkpos i prev [])) (lower_captures []) accept).
    rewrite (exec_lower r B _ _ accept accept) by reflexivity.
    destruct (exec r _ _ _); reflexivity.
  - change (exec r (mkpos i (option_map lower prev) (lower x :: map lower s))
              [] accept)
      with (exec r (lower_pos (mkpos i prev (x :: s))) (lower_captures [])
              accept).
    rewrite (exec_lower r B _ _ accept accept) by reflexivity.
    destruct (exec r _ _ _); [reflexivity|].
    apply (IH (S i) (Some x)).
Qed.

Lemma re_search_lower (r : regex) (s : text) :
  case_blind r ->
  re_search r (map lower s) = option_map lower_captures (re_search r s).
Proof.
  intros B. unfold re_search.
  change (search_from r 0 None (map lower s))
    with (search_from r 0 (option_map lower None) (map lower s)).
  rewrite (search_from_lower r s B 0 None).
  destruct (search_from r 0 None s) as [[c t]|]; reflexivity.
Qed.

Lemma group_lower (i : nat) (caps : captures) :
  group i (lower_captures caps) = option_map (map lower) (group i caps).
Proof.
  induction caps as [|[j g] caps IH]; cbn; [reflexivity|].
  destruct (Nat.eqb i j); [reflexivity|exact IH].
Qed.

Lemma digits_lower (g : text) :
  forallb is_digit g = true -> map lower g = g.
Proof.
  induction g as [|c g IH]; cbn; [reflexivity|].
  intros H. apply andb_true_iff in H as [Hc Hg].
  rewrite (proj2 (proj2 (proj2 (proj2 (proj2 (lower_facts c))))) Hc),
    (IH Hg). reflexivity.
Qed.

Lemma forallb_is_digit_lower (g : text) :
  forallb is_digit (map lower g) = forallb is_digit g.
Proof.
  induction g as [|c g IH]; cbn; [reflexivity|].
  rewrite (proj1 (proj2 (lower_facts c))), IH. reflexivity.
Qed.

Lemma int_of_digits_lower (g : text) :
  int_of_digits (map lower g) = int_of_digits g.
Proof.
  destruct (forallb is_digit g) eqn:D.
  - rewrite (digits_lower g D). reflexivity.
  - unfold int_of_digits. rewrite forallb_is_digit_lower, D.
    destruct g; reflexivity.
Qed.

Lemma map_lower_idem (g : text) : map lower (map lower g) = map lower g.
Proof.
  rewrite map_map. apply map_ext. intros c. exact (proj1 (lower_facts c)).
Qed.

Lemma date_fields_lower (now : clock) (day : Z)
  (month_str year_str : option text) :
  date_fields now day (option_map (map lower) month_str)
    (option_map (map lower) year_str)
  = date_fields now day month_str year_str.
Proof.
  unfold date_fields.
  assert (K : month_key (option_map (map lower) month_str)
              = month_key month_str).
  { destruct month_str as [g|]; [|reflexivity]. cbn.
    unfold text_lower. rewrite map_lower_idem. reflexivity. }
  rewrite K. destruct (month_key month_str) as [key|]; [|reflexivity].
  cbn [bind]. destruct (months key) as [m|]; [|reflexivity].
  cbn [bind].
  assert (Y : year_of now (option_map (map lower) year_str) m
              = year_of now year_str m).
  { destruct year_str as [[|c g]|]; try reflexivity.
    cbn [option_map map year_of].
    apply (int_of_digits_lower (c :: g)). }
  rewrite Y. reflexivity.
Qed.

Lemma date_arguments_lower (now : clock) (s : text) :
  date_arguments now (map lower s) = date_arguments now s.
Proof.
  destruct case_blind_patterns as (_ & B1 & B2).
  unfold date_arguments. cbv zeta.
  rewrite (re_search_lower _ s B1), (re_search_lower _ s B2).
  destruct (re_search pattern1 s) as [m1|]; cbn [option_map matched_fields].
  - f_equal. unfold int_group. rewrite !group_lower.
    destruct (group 1 m1) as [g|]; cbn [option_map]; [|reflexivity].
    rewrite int_of_digits_lower.
    destruct (int_of_digits g); cbn [bind]; [|reflexivity].
    apply date_fields_lower.
  - destruct (re_search pattern2 s) as [m2|];
      cbn [option_map matched_fields]; [|reflexivity].
    f_equal. unfold int_group. rewrite !group_lower.
    destruct (group 2 m2) as [g|]; cbn [option_map]; [|reflexivity].
    rewrite int_of_digits_lower.
    destruct (int_of_digits g); cbn [bind]; [|reflexivity].
    apply date_fields_lower.
Qed.

(** X8: on a text whose characters all lie below U+0100 (every [text]
    here), the case does not matter: the text in lower case resolves to
    the same date, with the same log, as the text itself (the three
    patterns are searched with [re.IGNORECASE] and the month is looked
    up in lower case).  The restriction is needed: beyond U+0100
    [str.lower] can change the number of characters. *)
Theorem find_date_in_text_ignores_case (MY_SCHEDULE : schedule)
  (now : clock) (s default_date_str course_code : text) :
  find_date_in_text MY_SCHEDULE now (text_lower s) default_date_str
    course_code
  = find_date_in_text MY_SCHEDULE now s default_date_str course_code.
Proof.
  destruct case_blind_patterns as (B0 & _ & _).
  unfold text_lower, find_date_in_text.
  destruct s as [|x s]; [reflexivity|].
  cbn [map]. change (lower x :: map lower s) with (map lower (x :: s)).
  destruct (strptime (firstn 10 default_date_str)) as [fb|e]; [|reflexivity].
  unfold explicit_date.
  rewrite (re_search_lower _ (x :: s) B0), date_arguments_lower.
  destruct (re_search next_class_regex (x :: s)); reflexivity.
Qed.

(* ================================================================= *)
(** ** [main]: the test of line 130 *)

Lemma code_digit_char (n : Z) : code (digit_char n) = 48 + n mod 10.
Proof.
  destruct (digit_char_cases n) as (k & Hk & -> & ->).
  cases_of k 0 10%nat; subst k; reflexivity.
Qed.

Lemma date_eq_iff (a b : datetime) :
  a = b <-> year a = year b /\ month a = month b /\ day a = day b.
Proof.
  split; [intros ->; auto|].
  destruct a, b. cbn. intros (-> & -> & ->). reflexivity.
Qed.

Lemma str_gt_nil (t : text) : str_gt t [] = true <-> t <> [].
Proof.
  destruct t; cbn; split; try discriminate; try contradiction; auto.
Qed.

(** Two dates in ISO format compare as strings the way the dates
    compare, and anything after an equal date makes the string
    greater. *)
Lemma str_gt_isoformat (a b : datetime) (t : text) :
  valid_date a = true -> valid_date b = true ->
  str_gt (isoformat a ++ t) (isoformat b) = true
  <-> yyyymmdd b < yyyymmdd a \/ (b = a /\ t <> []).
Proof.
  intros Va Vb.
  apply valid_ymd_elim in Va as (Ya & Ma & Da).
  apply valid_ymd_elim in Vb as (Yb & Mb & Db).
  assert (Da' : 1 <= day a <= 31)
    by (pose proof (days_in_month_le_31 (year a) (month a) Ma); lia).
  assert (Db' : 1 <= day b <= 31)
    by (pose proof (days_in_month_le_31 (year b) (month b) Mb); lia).
  rewrite date_eq_iff. unfold yyyymmdd, isoformat.
  cbn [app str_gt]. rewrite !code_digit_char.
  change (code "-"%char) with 45.
  generalize (year a) (month a) (day a) (year b) (month b) (day b)
    Ya Ma Da' Yb Mb Db'.
  clear. intros ya ma da yb mb db Ya Ma Da Yb Mb Db.
  repeat match goal with
         | |- context [if ?x <? ?y then _ else _] =>
             destruct (Z.ltb_spec x y)
         end;
    try rewrite str_gt_nil;
    (split; intros G; try discriminate G; try reflexivity);
    Z.div_mod_to_equations;
    first [ lia
          | exfalso; lia
          | destruct G as [G|[_ G]]; [exfalso; lia|exact G]
          | right; split; [lia|exact G] ].
Qed.

(** X9: the test [ann.posted_at > start_date] of line 130 compares
    strings.  For a valid posted value and a start date in
    ["YYYY-MM-DD"] form it keeps the announcement exactly when it was
    posted on a later day than the start date, or on that very day with
    something (a time) after the date. *)
Theorem posted_after_is_chronological (start d : datetime)
  (ann : announcement) (posted : text) :
  posted_at ann = Some posted ->
  valid_posted posted d ->
  valid_date start = true ->
  posted_after (isoformat start) ann = true
  <-> yyyymmdd start < yyyymmdd d
      \/ (start = d /\ (10 < List.length posted)%nat).
Proof.
  intros P V S. pose proof (valid_posted_split _ _ V) as E.
  destruct V as [V F]. unfold posted_after. rewrite P.
  assert (L : List.length posted
              = (10 + List.length (skipn 10 posted))%nat).
  { rewrite E at 1. rewrite length_app. reflexivity. }
  assert (T : skipn 10 posted <> [] <-> (10 < List.length posted)%nat).
  { rewrite L. destruct (skipn 10 posted); cbn [List.length]; split;
      try discriminate; try contradiction; lia. }
  rewrite <- T, <- (str_gt_isoformat d start (skipn 10 posted) V S), <- E.
  destruct posted as [|c p]; [discriminate E|]. reflexivity.
Qed.

Lemma posted_after_is_chronological_witness :
  posted_after (str "2024-01-03")
    (mkannouncement (str "Quiz") (str "moved") (Some (str "2024-01-03T08:00:00Z"))
       (str "https://canvas.example/1")) = true
  /\ posted_after (str "2024-01-03")
       (mkannouncement (str "Quiz") (str "moved") (Some (str "2024-01-02T23:59:59Z"))
          (str "https://canvas.example/1")) = false.
Proof.
  split.
  - apply (posted_after_is_chronological (mkdate 2024 1 3) (mkdate 2024 1 3)
             (mkannouncement (str "Quiz") (str "moved")
                (Some (str "2024-01-03T08:00:00Z"))
                (str "https://canvas.example/1"))
             (str "2024-01-03T08:00:00Z") eq_refl).
    + split; reflexivity.
    + reflexivity.
    + right. split; [reflexivity|cbn; lia].
  - destruct (posted_after (str "2024-01-03")
                (mkannouncement (str "Quiz") (str "moved")
                   (Some (str "2024-01-02T23:59:59Z"))
                   (str "https://canvas.example/1"))) eqn:E; [|reflexivity].
    apply (posted_after_is_chronological (mkdate 2024 1 3) (mkdate 2024 1 2)
             (mkannouncement (str "Quiz") (str "moved")
                (Some (str "2024-01-02T23:59:59Z"))
                (str "https://canvas.example/1"))
             (str "2024-01-02T23:59:59Z") eq_refl) in E.
    + destruct E as [E|[E _]]; [vm_compute in E|]; discriminate E.
    + split; reflexivity.
    + reflexivity.
Defined.

(* ================================================================= *)
(** ** [main]: the loop over the announcements of a course *)






(** What lines 139-143 do with a resolved date: the event they build
    is added when the calendar library accepts it, and the exception of
    the library is raised otherwise. *)
Lemma add_event_cases (lib : calendar_library) (ann : announcement)
  (posted course_code : text) (d : datetime) :
  let ev :=
    mkcalendar_event (announcement_name ann course_code) d true
      (announcement_description ann posted) in
  match add_event lib ann posted course_code d with
  | Ok e => e = ev /\ accepted lib ev
  | Raise e => refused lib ev e
  end.
Proof.
  unfold add_event, accepted, refused. cbn [begin].
  destruct (set_begin lib d) as [[]|e1]; cbn [bind]; [|left; reflexivity].
  destruct (make_all_day lib d) as [[]|e2]; cbn [bind];
    [|right; left; split; reflexivity].
  destruct (events_add lib _) as [[]|e3]; cbn [bind].
  - repeat split.
  - right; right. repeat split.
Qed.

Lemma add_event_Ok (lib : calendar_library) (MY_SCHEDULE : schedule)
  (now : clock) (ann : announcement) (posted course_code : text)
  (out : list event) (d : datetime) (ev : calendar_event) :
  posted_at ann = Some posted ->
  find_date_in_text MY_SCHEDULE now (full_text ann) posted course_code
  = (out, Ok d) ->
  add_event lib ann posted course_code d = Ok ev ->
  event_for MY_SCHEDULE now course_code ann ev /\ accepted lib ev.
Proof.
  intros P F A. pose proof (add_event_cases lib ann posted course_code d) as C.
  cbv zeta in C. rewrite A in C. destruct C as [-> C].
  split; [|exact C]. exists posted, out. cbn [begin name all_day description].
  auto.
Qed.

Lemma add_event_Raise (lib : calendar_library) (MY_SCHEDULE : schedule)
  (now : clock) (ann : announcement) (posted course_code : text)
  (out : list event) (d : datetime) (e : exn) :
  posted_at ann = Some posted ->
  find_date_in_text MY_SCHEDULE now (full_text ann) posted course_code
  = (out, Ok d) ->
  add_event lib ann posted course_code d = Raise e ->
  refused_for lib MY_SCHEDULE now course_code ann e.
Proof.
  intros P F A. pose proof (add_event_cases lib ann posted course_code d) as C.
  cbv zeta in C. rewrite A in C.
  eexists. split; [|exact C].
  exists posted, out. cbn [begin name all_day description]. auto.
Qed.




(** The other origins, each on one announcement: a course with an empty
    weekday list and the "next class" phrase; a posted value that is
    not a date; a listing that fails after its first page. *)
Example loop_ended_by_each_origin :
  let loop := announcement_loop needs_next_day [(str "CS 363", [])]
                (mkclock 2026 11) (str "2023-12-04") (str "CS 363") in
  raised (loop [mkannouncement (str "Room") (str "see you next class")
                  (Some (str "2024-01-03T10:00:00Z")) (str "https://c/1")]
            None)
  = Some IndexError
  /\ raised (loop [mkannouncement (str "Room") (str "changed")
                     (Some (str "yesterday")) (str "https://c/1")]
               None)
     = Some ValueError
  /\ raised (loop [mkannouncement (str "Room") (str "changed")
                     (Some (str "2024-01-03T10:00:00Z")) (str "https://c/1")]
               (Some (Other "ConnectionError")))
     = Some (Other "ConnectionError").
Proof. vm_compute. repeat split. Qed.

(** X11: the loop adds one all-day event per announcement that passes
    the test of line 130, in order, with the date [find_date_in_text]
    resolves, until the first announcement whose resolution raises or
    whose event the calendar library refuses; that exception ends the
    loop, the events added before it stay, and the announcements after
    it add nothing.  When all of them are added, the loop ends as the
    listing does. *)
Theorem loop_adds_events_until_first_exception (lib : calendar_library)
  (MY_SCHEDULE : schedule) (now : clock) (start_date course_code : text)
  (anns : list announcement) (listing_raises : option exn) :
  exists done todo,
    passing start_date anns = done ++ todo
    /\ Forall2
         (fun ann ev =>
            event_for MY_SCHEDULE now course_code ann ev /\ accepted lib ev)
         done
         (added (announcement_loop lib MY_SCHEDULE now start_date
                   course_code anns listing_raises))
    /\ match
         raised (announcement_loop lib MY_SCHEDULE now start_date
                   course_code anns listing_raises)
       with
       | None => todo = [] /\ listing_raises = None
       | Some e =>
           (todo = [] /\ listing_raises = Some e)
           \/ exists ann later,
                todo = ann :: later
                /\ (raises_on MY_SCHEDULE now course_code ann e
                    \/ refused_for lib MY_SCHEDULE now course_code ann e)
       end.
Proof.
  induction anns as [|ann anns IH]; cbn [announcement_loop passing filter].
  - exists [], []. cbn [added raised app]. split; [reflexivity|].
    split; [constructor|]. destruct listing_raises; auto.
  - destruct IH as (done & todo & E & F & R). fold (passing start_date anns).
    destruct (posted_after start_date ann) eqn:PA.
    + destruct (posted_at ann) as [posted|] eqn:P.
      * destruct (find_date_in_text MY_SCHEDULE now (full_text ann) posted
                    course_code) as [out [d|e]] eqn:Fd.
        -- destruct (add_event lib ann posted course_code d) as [ev|e] eqn:A;
             cbn [added raised].
           ++ exists (ann :: done), todo. rewrite E.
              split; [reflexivity|]. split; [|exact R].
              constructor; [|exact F].
              exact (add_event_Ok _ _ _ _ _ _ _ _ _ P Fd A).
           ++ exists [], (ann :: passing start_date anns).
              split; [reflexivity|]. split; [constructor|].
              right. exists ann, (passing start_date anns).
              split; [reflexivity|]. right.
              exact (add_event_Raise _ _ _ _ _ _ _ _ _ P Fd A).
        -- cbn [added raised].
           exists [], (ann :: passing start_date anns).
           split; [reflexivity|]. split; [constructor|].
           right. exists ann, (passing start_date anns).
           split; [reflexivity|]. left.
           exists posted, out. auto.
      * unfold posted_after in PA. rewrite P in PA. discriminate PA.
    + exists done, todo. auto.
Qed.

(** The first announcement is added, the second is too old, the third
    resolves to 9999-12-31, on which the library raises: the loop ends
    there and the fourth announcement is not looked at. *)
Example loop_keeps_events_before_the_exception :
  let out :=
    announcement_loop needs_next_day [(str "CS 363", [1; 3])]
      (mkclock 2026 11) (str "2023-12-04") (str "CS 363")
      [ mkannouncement (str "Quiz") (str "on 3rd Oct, 2024")
          (Some (str "2024-01-03T10:00:00Z")) (str "https://c/1");
        mkannouncement (str "Old") (str "news")
          (Some (str "2023-11-01T10:00:00Z")) (str "https://c/2");
        mkannouncement (str "Party") (str "on 31 Dec 9999")
          (Some (str "2024-01-04T10:00:00Z")) (str "https://c/3");
        mkannouncement (str "Exam") (str "on 5 Nov 2024")
          (Some (str "2024-01-05T10:00:00Z")) (str "https://c/4") ]
      None in
  map begin (added out) = [mkdate 2024 10 3]
  /\ raised out = Some OverflowError.
Proof. vm_compute. split; reflexivity. Qed.



(* ================================================================= *)
(** ** The answer is the next class day *)

(** X13: with weekday indices, the date [get_next_class_date] returns
    is the earliest class day after the reference date: no day strictly
    between the two falls on one of the course's weekdays. *)
Theorem next_class_is_the_earliest (MY_SCHEDULE : schedule)
  (course_code : text) (ref r x : datetime) (days : list Z) :
  matched_course MY_SCHEDULE course_code days ->
  Forall weekday_index days ->
  get_next_class_date MY_SCHEDULE course_code ref = Ok (Some r) ->
  toordinal ref < toordinal x < toordinal r ->
  ~ In (weekday x) days.
Proof.
  intros M W H Hx Hin. rewrite (get_next_class_date_matched _ _ _ _ M) in H.
  destruct (next_class_from_Ok _ _ _ H) as (_ & o & R & P).
  apply plus_days_Ok in P as [_ P].
  pose proof (weekday_range ref) as I. rewrite Forall_forall in W.
  unfold weekday_index in W.
  assert (E : weekday x
              = (weekday ref + (toordinal x - toordinal ref)) mod 7).
  { unfold weekday. rewrite Z.add_mod_idemp_l by lia. f_equal. lia. }
  set (j := toordinal x - toordinal ref) in *.
  assert (Hj : 0 < j < o) by lia.
  pose proof (W _ Hin) as Wx.
  destruct R as [(d & (Id & G & L) & ->)|(A & d0 & (I0 & _ & L0) & ->)].
  - pose proof (W d Id).
    rewrite E, Z.mod_small in Hin by lia.
    pose proof (L _ Hin). lia.
  - pose proof (W d0 I0).
    destruct (Z_lt_le_dec (weekday ref + j) 7) as [Lt|Ge].
    + rewrite E, Z.mod_small in Hin by lia.
      pose proof (A _ Hin). lia.
    + assert (E' : weekday x = weekday ref + j - 7).
      { rewrite E. clear E Hin Wx. Z.div_mod_to_equations. lia. }
      rewrite E' in Hin. pose proof (L0 _ Hin Logic.I). lia.
Qed.

Lemma next_class_is_the_earliest_witness :
  ~ In (weekday (mkdate 2024 1 7)) [1; 3].
Proof.
  apply (next_class_is_the_earliest [(str "CS 363", [1; 3])]
           (str "CS 363-001 Fall 2024") (mkdate 2024 1 5) (mkdate 2024 1 9)
           (mkdate 2024 1 7) [1; 3]).
  - exact matched_course_example.
  - repeat constructor; unfold weekday_index; lia.
  - vm_compute. reflexivity.
  - vm_compute. split; reflexivity.
Defined.

(* ================================================================= *)
(** ** The window of the inferred year *)

Lemma months_range (key : text) (m : Z) : months key = Ok m -> 1 <= m <= 12.
Proof.
  unfold months.
  destruct (find (fun e => text_eqb key (str (fst e))) months_table)
    as [e|] eqn:F; [|discriminate].
  intros [= <-]. apply find_some in F as [I _].
  cbn in I. repeat (destruct I as [<-|I]; [cbn; lia|]). destruct I.
Qed.

(** X14: a date written without a year is placed, by the year
    inference of lines 94-97, in the window from 6 months before the
    current month to 11 months after it. *)
Theorem inferred_year_window (now : clock) (s : text) (day : Z)
  (month_str : option text) (y m d : Z) :
  1 <= now_month now <= 12 ->
  matched_fields (re_search pattern1 s) (re_search pattern2 s)
  = Some (Ok (day, month_str, None)) ->
  date_arguments now s = Some (Ok (y, m, d)) ->
  d = day
  /\ -6 <= (y * 12 + m) - (now_year now * 12 + now_month now) <= 11.
Proof.
  intros Hn F A. unfold date_arguments in A. cbv zeta in A.
  rewrite F in A. cbn [bind] in A. unfold date_fields in A.
  destruct (month_key month_str) as [key|]; [|discriminate A].
  cbn [bind] in A. destruct (months key) as [m'|] eqn:K; [|discriminate A].
  cbn [bind] in A. apply months_range in K.
  unfold year_of in A.
  destruct ((m' <? now_month now) && (now_month now - m' >? 6)) eqn:C;
    cbn [bind] in A; injection A as <- <- <-;
    (split; [reflexivity|]).
  - bool_to_prop. lia.
  - apply andb_false_iff in C as [C|C]; bool_to_prop; lia.
Qed.

Lemma inferred_year_window_witness :
  2 = 2
  /\ -6 <= (2027 * 12 + 3) - (now_year (mkclock 2026 11) * 12
                              + now_month (mkclock 2026 11)) <= 11.
Proof.
  apply (inferred_year_window (mkclock 2026 11) (str "Meet on 2 Mar") 2
           (Some (str "Mar")) 2027 3 2).
  - cbn. lia.
  - vm_compute. reflexivity.
  - vm_compute. reflexivity.
Defined.
